(** * IT asset number generator: a shallow embedding of [src/App.tsx]

    The development follows the TypeScript source function by function.

    - JavaScript strings are modelled by [string]; the case mappings, [trim]
      and the [\s] character class are the ASCII ones. They are those of the
      source on ASCII text, and only there: a statement that depends on them
      assumes [ascii_only] of the strings it reads.
    - JavaScript numbers are modelled by [Z], with the exact sum, difference
      and decimal notation. These are those of the source on the safe
      integers, between [-2^53] and [2^53], and only there: a statement that
      depends on them assumes [safe_integer] of the numbers it reads.
    - [iconMap] is the table of the keys the object literal has itself; the
      members that every object inherits are not in it, and a statement
      about icons assumes [known_icon] of the ids it reads.
    - A JavaScript [Map] keeps its entries in insertion order; it is modelled
      by the list of its entries, which has no repeated key ([Map_wf]).
    - [new Date()], [alert] and [console.warn] are effects: the code that uses
      them lives in the monad [io], and [run] interprets a computation against
      a sequence of clock readings.
    - The React state of the component is the record [AppState]; an event
      handler is a function from the state it closes over to an [io]
      computation of the next state. *)

From Stdlib Require Import ZArith List Bool Ascii String Lia Arith.
From Stdlib Require Import Decimal DecimalString DecimalPos DecimalZ.
Import ListNotations.

#[local] Open Scope string_scope.
#[local] Open Scope Z_scope.

(** ** JavaScript string primitives *)

Module Js.

(** [Number.prototype.toString] on a safe integer: the decimal notation.
    (Beyond [2^53] the source rounds the digits, and from [1e21] on it
    writes an exponent.) *)
Definition toString (z : Z) : string := NilZero.string_of_int (Z.to_int z).

(** [s.slice(-n)]: the last [n] characters, or all of [s] when it is shorter. *)
Definition slice_last (n : nat) (s : string) : string :=
  substring (String.length s - n) n s.

(** [s.substring(0, n)]. *)
Definition substring0 (n : nat) (s : string) : string := substring 0 n s.

(** The filler of [padStart]: [fill] repeated and cut to [k] characters. *)
Fixpoint repeat_to (k : nat) (fill rest : string) : string :=
  match k with
  | O => ""
  | S k' =>
      match rest with
      | String c r => String c (repeat_to k' fill r)
      | EmptyString =>
          match fill with
          | String c r => String c (repeat_to k' fill r)
          | EmptyString => ""
          end
      end
  end.

(** [s.padStart(n, fill)]. *)
Definition padStart (n : nat) (fill s : string) : string :=
  if (n <=? String.length s)%nat then s
  else repeat_to (n - String.length s) fill fill ++ s.

Definition is_lower (c : ascii) : bool :=
  ((97 <=? nat_of_ascii c) && (nat_of_ascii c <=? 122))%nat.

Definition is_upper (c : ascii) : bool :=
  ((65 <=? nat_of_ascii c) && (nat_of_ascii c <=? 90))%nat.

Definition upper_char (c : ascii) : ascii :=
  if is_lower c then ascii_of_nat (nat_of_ascii c - 32) else c.

Definition lower_char (c : ascii) : ascii :=
  if is_upper c then ascii_of_nat (nat_of_ascii c + 32) else c.

Fixpoint map_chars (f : ascii -> ascii) (s : string) : string :=
  match s with
  | EmptyString => EmptyString
  | String c r => String (f c) (map_chars f r)
  end.

(** [toUpperCase] and [toLowerCase] on ASCII text. (On other text the
    mappings of the source are the Unicode ones, which can change the
    length.) *)
Definition toUpperCase : string -> string := map_chars upper_char.
Definition toLowerCase : string -> string := map_chars lower_char.

(** The ASCII members of the class [\s]: TAB, LF, VT, FF, CR and space.
    (The class of the source also has U+00A0, U+FEFF, U+2028, U+2029 and
    the Unicode space separators.) *)
Definition is_space (c : ascii) : bool :=
  let n := nat_of_ascii c in
  (((9 <=? n) && (n <=? 13)) || (n =? 32))%nat.

Fixpoint trimStart (s : string) : string :=
  match s with
  | EmptyString => EmptyString
  | String c r => if is_space c then trimStart r else s
  end.

(** [trimEnd] keeps a character when it is not white space or when
    something survives behind it. *)
Fixpoint trimEnd (s : string) : string :=
  match s with
  | EmptyString => EmptyString
  | String c r =>
      match trimEnd r with
      | EmptyString => if is_space c then EmptyString else String c EmptyString
      | r' => String c r'
      end
  end.

Definition trim (s : string) : string := trimEnd (trimStart s).

(** [s.replace(/\s+/g, by)]: every maximal run of white space becomes one
    copy of [by]; [in_run] says that the previous character was white space. *)
Fixpoint replace_spaces_from (in_run : bool) (by_ s : string) : string :=
  match s with
  | EmptyString => EmptyString
  | String c r =>
      if is_space c
      then (if in_run then replace_spaces_from true by_ r
            else by_ ++ replace_spaces_from true by_ r)
      else String c (replace_spaces_from false by_ r)
  end.

Definition replace_spaces (by_ s : string) : string :=
  replace_spaces_from false by_ s.

(** A string used as a condition is true when it is not empty. *)
Definition truthy (s : string) : bool :=
  match s with EmptyString => false | _ => true end.

End Js.

(** ** [Map<string, number>] *)

(** The entries of a map, oldest insertion first. *)
Definition JsMap : Type := list (string * Z).

(** No key occurs twice: the invariant of every [Map] object. *)
Definition Map_wf (m : JsMap) : Prop := NoDup (map fst m).

(** [m.get(k)] *)
Fixpoint Map_get (k : string) (m : JsMap) : option Z :=
  match m with
  | [] => None
  | (k', v) :: r => if String.eqb k' k then Some v else Map_get k r
  end.

(** [m.set(k, v)]: an existing key keeps its place and takes the new value,
    a new key goes to the end. *)
Fixpoint Map_set (k : string) (v : Z) (m : JsMap) : JsMap :=
  match m with
  | [] => [(k, v)]
  | (k', v') :: r =>
      if String.eqb k' k then (k', v) :: r else (k', v') :: Map_set k v r
  end.

(** [new Map(pairs)]: the pairs are [set] one after the other into an empty
    map. *)
Definition Map_new (pairs : list (string * Z)) : JsMap :=
  fold_left (fun m kv => Map_set (fst kv) (snd kv) m) pairs [].

(** [Array.from(m.entries())] *)
Definition Map_entries (m : JsMap) : list (string * Z) := m.

(** ** Asset types *)

(** The icon components of [iconMap]. *)
Inductive ElementType : Type :=
  Laptop | Monitor | Keyboard | Mouse | Printer | HardDrive | Server.

(** The keys the object literal [iconMap] has itself. (Indexing the object
    of the source with [constructor], [toString], [__proto__] or another
    member that every object inherits gives that member.) *)
Definition iconMap (key : string) : option ElementType :=
  if String.eqb key "laptop" then Some Laptop
  else if String.eqb key "desktop" then Some Monitor
  else if String.eqb key "keyboard" then Some Keyboard
  else if String.eqb key "mouse" then Some Mouse
  else if String.eqb key "printer" then Some Printer
  else if String.eqb key "storage" then Some HardDrive
  else if String.eqb key "server" then Some Server
  else if String.eqb key "default" then Some HardDrive
  else None.

Definition getIconComponent (iconId : option string) : ElementType :=
  match iconId with
  | Some i => if Js.truthy i then
                match iconMap i with Some c => c | None => HardDrive end
              else HardDrive
  | None => HardDrive
  end.

Record AssetType : Type := mkAssetType {
  id : string;
  name : string;
  prefix : string;
  icon : ElementType;
  iconId : string;
  rangeStart : Z;
  rangeEnd : Z;
  isDefault : bool
}.

Definition defaultAssetTypes : list AssetType :=
  [ mkAssetType "laptop" "Laptop" "LT" Laptop "laptop" 1 1000 true;
    mkAssetType "desktop" "Desktop PC" "PC" Monitor "desktop" 1001 2000 true;
    mkAssetType "keyboard" "Keyboard" "KB" Keyboard "keyboard" 2001 3000 true;
    mkAssetType "mouse" "Mouse" "MS" Mouse "mouse" 3001 4000 true;
    mkAssetType "printer" "Printer" "PR" Printer "printer" 4001 5000 true;
    mkAssetType "storage" "Storage Device" "SD" HardDrive "storage" 5001 6000 true ].

(** ** Effects *)

(** What the program reads of a [Date]: [getFullYear()] and [getMonth()]
    (January is 0). *)
Record Date : Type := mkDate { getFullYear : Z; getMonth : Z }.

(** A reading of the wall clock: the month index is one of the twelve and
    the year has at least two digits. *)
Definition wall_clock (d : Date) : Prop :=
  10 <= getFullYear d /\ 0 <= getMonth d <= 11.

Inductive io (A : Type) : Type :=
| Ret (a : A)
| NewDate (k : Date -> io A)
| ConsoleWarn (msg : string) (k : io A)
| Alert (msg : string) (k : io A).

Arguments Ret {A} a.
Arguments NewDate {A} k.
Arguments ConsoleWarn {A} msg k.
Arguments Alert {A} msg k.

Fixpoint bind {A B : Type} (m : io A) (f : A -> io B) : io B :=
  match m with
  | Ret a => f a
  | NewDate k => NewDate (fun d => bind (k d) f)
  | ConsoleWarn msg k => ConsoleWarn msg (bind k f)
  | Alert msg k => Alert msg (bind k f)
  end.

Notation "x <- m ;; k" := (bind m (fun x => k))
  (at level 61, m at next level, right associativity).

(** The outside of the program: how many times the clock was read, and
    what was written to the console and shown in alert boxes (oldest
    first). *)
Record World : Type := mkWorld {
  clockReads : nat;
  console : list string;
  alerts : list string
}.

Definition world0 : World := mkWorld 0 [] [].

Definition tick (w : World) : World :=
  mkWorld (S (clockReads w)) (console w) (alerts w).

Definition warned (msg : string) (w : World) : World :=
  mkWorld (clockReads w) (console w ++ [msg]) (alerts w).

Definition alerted (msg : string) (w : World) : World :=
  mkWorld (clockReads w) (console w) (alerts w ++ [msg]).

(** [run clk p w] runs [p] from [w]; the [n]-th [new Date()] of the session
    returns [clk n]. *)
Fixpoint run {A : Type} (clk : nat -> Date) (p : io A) (w : World) : A * World :=
  match p with
  | Ret a => (a, w)
  | NewDate k => run clk (k (clk (clockReads w))) (tick w)
  | ConsoleWarn msg k => run clk k (warned msg w)
  | Alert msg k => run clk k (alerted msg w)
  end.

(** The clock that always reads [d]. *)
Definition frozen (d : Date) : nat -> Date := fun _ => d.

(** ** The generator *)

Record Generated : Type := mkGenerated {
  assetNumber : string;
  nextCounterValue : Z
}.

(** [now.getFullYear().toString().slice(-2)] *)
Definition yearOf (now : Date) : string :=
  Js.slice_last 2 (Js.toString (getFullYear now)).

(** [(now.getMonth() + 1).toString().padStart(2, '0')] *)
Definition monthOf (now : Date) : string :=
  Js.padStart 2 "0" (Js.toString (getMonth now + 1)).

(** The template [`${prefix}${year}${month}`]. *)
Definition keyPrefixOf (assetType : AssetType) (now : Date) : string :=
  prefix assetType ++ yearOf now ++ monthOf now.

(** [lastGeneratedCounters.get(keyPrefix) ?? (rangeStart - 1)]; the
    difference is the one of the source for a safe [rangeStart]. *)
Definition lastUsedNumberOf (assetType : AssetType)
    (lastGeneratedCounters : JsMap) (now : Date) : Z :=
  match Map_get (keyPrefixOf assetType now) lastGeneratedCounters with
  | Some n => n
  | None => rangeStart assetType - 1
  end.

(** [nextNumber.toString().padStart(4, '0')] *)
Definition formatNum (nextNumber : Z) : string :=
  Js.padStart 4 "0" (Js.toString nextNumber).

Definition exhaustedWarning (assetType : AssetType) (now : Date) : string :=
  "Range " ++ Js.toString (rangeStart assetType) ++ "-"
  ++ Js.toString (rangeEnd assetType) ++ " exhausted for "
  ++ keyPrefixOf assetType now ++ ".".

Definition exhaustedAlert (assetType : AssetType) (now : Date) : string :=
  "Error: The number range (" ++ Js.toString (rangeStart assetType) ++ "-"
  ++ Js.toString (rangeEnd assetType) ++ ") for " ++ name assetType
  ++ " (" ++ prefix assetType ++ ") is full for the current month ("
  ++ yearOf now ++ "-" ++ monthOf now ++ ").".

(** The sum [lastUsedNumber + 1] is the one of the source for a safe
    [lastUsedNumber]; at [2^53] the source adds nothing. *)
Definition generateNextAssetNumber (assetType : AssetType)
    (lastGeneratedCounters : JsMap) : io (option Generated) :=
  now <- NewDate Ret ;;
  let keyPrefix := keyPrefixOf assetType now in
  let lastUsedNumber := lastUsedNumberOf assetType lastGeneratedCounters now in
  let nextNumber := lastUsedNumber + 1 in
  if rangeEnd assetType <? nextNumber then
    ConsoleWarn (exhaustedWarning assetType now)
      (Alert (exhaustedAlert assetType now) (Ret None))
  else
    let formattedNum := formatNum nextNumber in
    Ret (Some (mkGenerated (keyPrefix ++ formattedNum) nextNumber)).

(** ** The component state and its event handlers *)

Record AppState : Type := mkAppState {
  assetTypes : list AssetType;
  lastGeneratedCounters : JsMap;
  selectedType : string;
  showAddForm : bool;
  newAssetType : string * string;   (* name, prefix *)
  generatedNumber : string
}.

(** The state setters; the first three take an updater, as in the source. *)
Definition setAssetTypes (f : list AssetType -> list AssetType) (st : AppState) :=
  mkAppState (f (assetTypes st)) (lastGeneratedCounters st) (selectedType st)
             (showAddForm st) (newAssetType st) (generatedNumber st).

Definition setLastGeneratedCounters (f : JsMap -> JsMap) (st : AppState) :=
  mkAppState (assetTypes st) (f (lastGeneratedCounters st)) (selectedType st)
             (showAddForm st) (newAssetType st) (generatedNumber st).

Definition setSelectedType (f : string -> string) (st : AppState) :=
  mkAppState (assetTypes st) (lastGeneratedCounters st) (f (selectedType st))
             (showAddForm st) (newAssetType st) (generatedNumber st).

Definition setShowAddForm (b : bool) (st : AppState) :=
  mkAppState (assetTypes st) (lastGeneratedCounters st) (selectedType st)
             b (newAssetType st) (generatedNumber st).

Definition setNewAssetType (v : string * string) (st : AppState) :=
  mkAppState (assetTypes st) (lastGeneratedCounters st) (selectedType st)
             (showAddForm st) v (generatedNumber st).

Definition setGeneratedNumber (s : string) (st : AppState) :=
  mkAppState (assetTypes st) (lastGeneratedCounters st) (selectedType st)
             (showAddForm st) (newAssetType st) s.

(** [assetTypes.find(t => t.id === wanted)] *)
Definition findById (wanted : string) (types : list AssetType) : option AssetType :=
  find (fun t => String.eqb (id t) wanted) types.

Definition handleGenerate (st : AppState) : io AppState :=
  match findById (selectedType st) (assetTypes st) with
  | Some asset =>
      result <- generateNextAssetNumber asset (lastGeneratedCounters st) ;;
      match result with
      | Some r =>
          let keyPrefix :=
            Js.substring0 (String.length (prefix asset) + 4) (assetNumber r) in
          Ret (setGeneratedNumber (assetNumber r)
                 (setLastGeneratedCounters
                    (fun prevMap =>
                       Map_set keyPrefix (nextCounterValue r)
                               (Map_new (Map_entries prevMap)))
                    st))
      | None => Ret (setGeneratedNumber "" st)
      end
  | None => Ret st
  end.

(** [assetTypes.some(t => t.prefix.toUpperCase() === trimmedPrefix)] *)
Definition prefixExists (types : list AssetType) (trimmedPrefix : string) : bool :=
  existsb (fun t => String.eqb (Js.toUpperCase (prefix t)) trimmedPrefix) types.

(** [assetTypes.some(t => t.name.toLowerCase() === trimmedName.toLowerCase())] *)
Definition nameExists (types : list AssetType) (trimmedName : string) : bool :=
  existsb (fun t => String.eqb (Js.toLowerCase (name t)) (Js.toLowerCase trimmedName))
          types.

(** [assetTypes.reduce((max, type) => Math.max(max, type.rangeEnd), 0)] *)
Definition maxRangeEndOf (types : list AssetType) : Z :=
  fold_left (fun max type => Z.max max (rangeEnd type)) types 0.

(** The two sums are the ones of the source while [maxRangeEnd + 1000]
    stays below [2^53]. *)
Definition newTypeToAdd (types : list AssetType) (trimmedName trimmedPrefix : string)
  : AssetType :=
  let maxRangeEnd := maxRangeEndOf types in
  let newRangeStart := maxRangeEnd + 1 in
  let newRangeEnd := newRangeStart + 999 in
  let newId := Js.replace_spaces "-" (Js.toLowerCase trimmedName) in
  mkAssetType newId trimmedName trimmedPrefix
              (getIconComponent (Some "default")) "default"
              newRangeStart newRangeEnd false.

Definition handleAddAssetType (st : AppState) : io AppState :=
  let trimmedName := Js.trim (fst (newAssetType st)) in
  let trimmedPrefix := Js.toUpperCase (Js.trim (snd (newAssetType st))) in
  if Js.truthy trimmedName && Js.truthy trimmedPrefix
     && (2 <=? String.length trimmedPrefix)%nat
     && (String.length trimmedPrefix <=? 3)%nat
  then
    if prefixExists (assetTypes st) trimmedPrefix
    then Alert "Prefix already exists!" (Ret st)
    else if nameExists (assetTypes st) trimmedName
    then Alert "Name already exists!" (Ret st)
    else
      let added := newTypeToAdd (assetTypes st) trimmedName trimmedPrefix in
      Ret (setShowAddForm false
             (setNewAssetType ("", "")
                (setAssetTypes (fun prev => (prev ++ [added])%list) st)))
  else
    if negb (Js.truthy trimmedName)
    then Alert "Asset Name cannot be empty." (Ret st)
    else if negb (Js.truthy trimmedPrefix)
    then Alert "Prefix cannot be empty." (Ret st)
    else Alert "Prefix must be 2 or 3 characters long." (Ret st).

Definition handleRemoveAssetType (idToRemove : string) (st : AppState) : io AppState :=
  let typeToRemove := findById idToRemove (assetTypes st) in
  if match typeToRemove with Some t => isDefault t | None => false end
  then Alert "Default asset types cannot be removed." (Ret st)
  else if (List.length (assetTypes st) <=? 1)%nat
  then Alert "Cannot remove the last asset type!" (Ret st)
  else
    let keep := fun type : AssetType => negb (String.eqb (id type) idToRemove) in
    let st' := setAssetTypes (fun prev => filter keep prev) st in
    if String.eqb (selectedType st) idToRemove
    then
      Ret (setSelectedType
             (fun _ =>
                match filter keep (assetTypes st) with
                | t :: _ => id t
                | [] => ""
                end)
             st')
    else Ret st'.

(** ** The user interface *)

(** What the user can do on the page, as the JSX wires it: the Add Type
    button, the form (shown when [showAddForm]) with its close button, its
    two inputs and its submit button, one card per asset type with a remove
    button on the types that are not default, and the Generate button, which
    is disabled while no type is selected. Cards are named by their position
    in the registry. *)
Inductive Action : Type :=
| OpenAddForm
| CloseAddForm
| ChangeName (value : string)
| ChangePrefix (value : string)
| SubmitAdd
| SelectCard (n : nat)
| RemoveCard (n : nat)
| Generate.

Definition act (a : Action) (st : AppState) : io AppState :=
  match a with
  | OpenAddForm => Ret (setShowAddForm true st)
  | CloseAddForm =>
      if showAddForm st then Ret (setShowAddForm false st) else Ret st
  | ChangeName value =>
      if showAddForm st
      then Ret (setNewAssetType (value, snd (newAssetType st)) st)
      else Ret st
  | ChangePrefix value =>
      if showAddForm st
      then Ret (setNewAssetType (fst (newAssetType st), Js.toUpperCase value) st)
      else Ret st
  | SubmitAdd =>
      if showAddForm st then handleAddAssetType st else Ret st
  | SelectCard n =>
      match nth_error (assetTypes st) n with
      | Some type => Ret (setSelectedType (fun _ => id type) st)
      | None => Ret st
      end
  | RemoveCard n =>
      match nth_error (assetTypes st) n with
      | Some type =>
          if isDefault type then Ret st
          else handleRemoveAssetType (id type) st
      | None => Ret st
      end
  | Generate =>
      if Js.truthy (selectedType st) then handleGenerate st else Ret st
  end.

(** A sequence of actions, each on the state the one before left. *)
Fixpoint session (actions : list Action) (st : AppState) : io AppState :=
  match actions with
  | [] => Ret st
  | a :: rest => st' <- act a st ;; session rest st'
  end.

(** The state of a fresh session with nothing in storage. *)
Definition initialState : AppState :=
  mkAppState defaultAssetTypes (Map_new []) "laptop" false ("", "") "".

Definition laptop : AssetType :=
  mkAssetType "laptop" "Laptop" "LT" Laptop "laptop" 1 1000 true.

Definition june2024 : Date := mkDate 2024 5.

Definition july2024 : Date := mkDate 2024 6.

(** [n] clicks on the Generate button in a row: the numbers displayed after
    each click, and the state after the last one. *)
Fixpoint generateMany (n : nat) (st : AppState) : io (list string * AppState) :=
  match n with
  | O => Ret ([], st)
  | S n' =>
      st' <- handleGenerate st ;;
      rest <- generateMany n' st' ;;
      Ret (generatedNumber st' :: fst rest, snd rest)
  end.

(** Two clock readings of the same period give the same year and month
    strings. *)
Definition same_period (d1 d2 : Date) : Prop :=
  yearOf d1 = yearOf d2 /\ monthOf d1 = monthOf d2.

(** ** Persistence of the counters *)

(** The array the save effect hands to [JSON.stringify]. *)
Definition saveCounters (counters : JsMap) : list (string * Z) :=
  Map_entries counters.

(** [loadCounters]: [stored] is the array [JSON.parse] returns, or [None]
    when the storage key is missing or the text does not parse. *)
Definition loadCounters (stored : option (list (string * Z))) : JsMap :=
  match stored with
  | Some parsedArray => Map_new parsedArray
  | None => Map_new []
  end.

(** ** Persistence of the registry *)

(** An asset type as it is stored: every field but the icon component. *)
Record StoredType : Type := mkStoredType {
  stored_id : string;
  stored_name : string;
  stored_prefix : string;
  stored_iconId : string;
  stored_rangeStart : Z;
  stored_rangeEnd : Z;
  stored_isDefault : bool
}.

(** [({ icon, ...rest }) => rest] *)
Definition withoutIcon (t : AssetType) : StoredType :=
  mkStoredType (id t) (name t) (prefix t) (iconId t)
               (rangeStart t) (rangeEnd t) (isDefault t).

(** [type => ({ ...type, icon: getIconComponent(type.iconId) })] *)
Definition withIcon (type : StoredType) : AssetType :=
  mkAssetType (stored_id type) (stored_name type) (stored_prefix type)
              (getIconComponent (Some (stored_iconId type))) (stored_iconId type)
              (stored_rangeStart type) (stored_rangeEnd type) (stored_isDefault type).

(** The array the save effect hands to [JSON.stringify]. *)
Definition saveAssetTypes (types : list AssetType) : list StoredType :=
  map withoutIcon types.

(** [loadAssetTypes]: [stored] is the array of records [JSON.parse] returns,
    or [None] when the storage key is missing or empty, the text does not
    parse, or what it parses to is not an array. *)
Definition loadAssetTypes (stored : option (list StoredType)) : list AssetType :=
  match stored with
  | Some parsedTypes => map withIcon parsedTypes
  | None => map (fun type => type) defaultAssetTypes
  end.

(** The two keys of [localStorage], parsed. *)
Record Storage : Type := mkStorage {
  assetTypesState_v1 : option (list StoredType);
  assetCountersState_v1 : option (list (string * Z))
}.

(** The state of the component when it mounts: the initialisers of the
    [useState] calls of [App]. The selection is [loadedTypes[0]?.id || '']. *)
Definition App_mount (storage : Storage) : AppState :=
  mkAppState
    (loadAssetTypes (assetTypesState_v1 storage))
    (loadCounters (assetCountersState_v1 storage))
    (match loadAssetTypes (assetTypesState_v1 storage) with
     | t :: _ => if Js.truthy (id t) then id t else ""
     | [] => ""
     end)
    false ("", "") "".

(** What the two save effects leave in storage once they have run on a
    state (a write that the browser refuses is not modelled). *)
Definition persisted (st : AppState) : Storage :=
  mkStorage (Some (saveAssetTypes (assetTypes st)))
            (Some (saveCounters (lastGeneratedCounters st))).

(** ** States used in the examples *)

(** The laptop counter of June 2024 at the end of its range. *)
Definition fullJune : AppState :=
  setLastGeneratedCounters (fun _ => [("LT2406", 1000)]) initialState.

Definition desktop : AssetType :=
  mkAssetType "desktop" "Desktop PC" "PC" Monitor "desktop" 1001 2000 true.

(** The PC type selected, with counters for two types in July 2024. *)
Definition julyDesktop : AppState :=
  mkAppState defaultAssetTypes [("LT2407", 7); ("PC2407", 1041)]
             "desktop" false ("", "") "".

(** The form filled in on the default registry. *)
Definition addForm (newName newPrefix : string) : AppState :=
  setShowAddForm true (setNewAssetType (newName, newPrefix) initialState).

(** The user adds a type named Desktop with the prefix DT. *)
Definition addDesktop : list Action :=
  [OpenAddForm; ChangeName "Desktop"; ChangePrefix "dt"; SubmitAdd].

(** The user adds a type named Server and selects its card. *)
Definition addServerAndSelect : list Action :=
  [OpenAddForm; ChangeName "Server"; ChangePrefix "sv"; SubmitAdd; SelectCard 6].

(** The user adds two types whose names differ in their white space. *)
Definition addTwoAlike : list Action :=
  [OpenAddForm; ChangeName "Dock A"; ChangePrefix "da"; SubmitAdd;
   OpenAddForm; ChangeName "Dock  A"; ChangePrefix "db"; SubmitAdd].

(** A registry whose only range lies below zero, as it can come out of
    storage, with the form filled in. *)
Definition returnsType : AssetType :=
  mkAssetType "returns" "Returns" "RT" HardDrive "default" (-10) (-5) false.

Definition belowZero : AppState :=
  mkAppState [returnsType] [] "returns" true ("Server", "sv") "".

(** ** Vocabulary of the statements *)

(** The duplicate-prefix check as the specification words it: an exact,
    case-sensitive match of the submitted prefix against the stored ones.
    It is compared with [prefixExists], the check of the source. *)
Definition prefixExists_exact (types : list AssetType) (trimmedPrefix : string) : bool :=
  existsb (fun t => String.eqb (prefix t) trimmedPrefix) types.

(** Two characters that are equal or the two cases of one letter. *)
Definition case_variant (c d : ascii) : Prop :=
  c = d
  \/ (Js.is_lower c = true /\ (nat_of_ascii d + 32 = nat_of_ascii c)%nat)
  \/ (Js.is_lower d = true /\ (nat_of_ascii c + 32 = nat_of_ascii d)%nat).

(** Two strings that differ in case only. *)
Inductive same_up_to_case : string -> string -> Prop :=
| same_empty : same_up_to_case "" ""
| same_char (c d : ascii) (s t : string) :
    case_variant c d -> same_up_to_case s t ->
    same_up_to_case (String c s) (String d t).

(** Every key of [m] is a key of [m'] with a value that is not smaller. *)
Definition counters_le (m m' : JsMap) : Prop :=
  forall k v, Map_get k m = Some v ->
    exists v', Map_get k m' = Some v' /\ v <= v'.

(** The integers of the closed range of a type. *)
Definition in_range (x : Z) (t : AssetType) : Prop :=
  rangeStart t <= x <= rangeEnd t.

(** A safe integer: one of the integers on which the sum, the difference
    and the decimal notation of the source are exact. *)
Definition safe_integer (z : Z) : Prop := - 2 ^ 53 < z < 2 ^ 53.

Definition safe_type (t : AssetType) : Prop :=
  safe_integer (rangeStart t) /\ safe_integer (rangeEnd t).

Definition safe_counters (m : JsMap) : Prop :=
  forall k v, Map_get k m = Some v -> safe_integer v.

Definition safe_registry (types : list AssetType) : Prop :=
  forall t, In t types -> safe_type t.

(** A state whose numbers are safe and stay so over [n] more actions: each
    add moves the highest range end up by 1000 at most. *)
Definition safe_state (n : nat) (st : AppState) : Prop :=
  safe_registry (assetTypes st)
  /\ safe_counters (lastGeneratedCounters st)
  /\ maxRangeEndOf (assetTypes st) + 1000 * Z.of_nat n < 2 ^ 53.

(** A string of ASCII characters: one on which [trim], the case mappings
    and [length] of the source are the ones of [Js]. *)
Definition ascii_only (s : string) : Prop :=
  forallb (fun c => (nat_of_ascii c <? 128)%nat) (list_ascii_of_string s) = true.

Definition ascii_registry (types : list AssetType) : Prop :=
  forall t, In t types -> ascii_only (name t) /\ ascii_only (prefix t).

(** Every stored prefix is in upper case, as the form and the default
    types make them. *)
Definition upper_case_registry (types : list AssetType) : Prop :=
  forall t, In t types -> Js.toUpperCase (prefix t) = prefix t.

(** An icon id that is a key of [iconMap] itself. *)
Definition known_icon (key : string) : Prop := iconMap key <> None.

(** The icon of a type is the one its [iconId] stands for. *)
Definition icon_restored (t : AssetType) : Prop :=
  icon t = getIconComponent (Some (iconId t)).

(** No default type comes after a type that is not default. *)
Fixpoint defaults_first (types : list AssetType) : bool :=
  match types with
  | [] => true
  | t :: rest =>
      if isDefault t then defaults_first rest
      else forallb (fun u => negb (isDefault u)) rest
  end.

(** How one user action can change the registry: not at all, by the type
    [handleAddAssetType] appends once its checks have passed, or by the
    filter of [handleRemoveAssetType] once its two refusals are behind. *)
Inductive registry_step (types : list AssetType) : list AssetType -> Prop :=
| step_same : registry_step types types
| step_added (trimmedName trimmedPrefix : string) :
    Js.truthy trimmedName = true ->
    (2 <= String.length trimmedPrefix <= 3)%nat ->
    Js.toUpperCase trimmedPrefix = trimmedPrefix ->
    prefixExists types trimmedPrefix = false ->
    nameExists types trimmedName = false ->
    registry_step types
      (List.app types [newTypeToAdd types trimmedName trimmedPrefix])
| step_removed (idToRemove : string) :
    match findById idToRemove types with
    | Some t => isDefault t
    | None => false
    end = false ->
    (1 < List.length types)%nat ->
    registry_step types
      (filter (fun type => negb (String.eqb (id type) idToRemove)) types).

(** The registry of a state is in ascending ranges: each range is not empty
    and ends before the ranges of the types after it begin. *)
Inductive ascending_ranges : list AssetType -> Prop :=
| ascending_nil : ascending_ranges []
| ascending_cons (t : AssetType) (rest : list AssetType) :
    rangeStart t <= rangeEnd t ->
    Forall (fun u => rangeEnd t < rangeStart u) rest ->
    ascending_ranges rest ->
    ascending_ranges (t :: rest).

(** A registry is tidy when its prefixes differ even with case ignored, its
    names differ even with case ignored, and every prefix is upper case and
    two or three characters long. *)
Definition tidy_registry (types : list AssetType) : Prop :=
  NoDup (map (fun t => Js.toUpperCase (prefix t)) types)
  /\ NoDup (map (fun t => Js.toLowerCase (name t)) types)
  /\ Forall (fun t => Js.toUpperCase (prefix t) = prefix t
                      /\ (2 <= String.length (prefix t) <= 3)%nat) types.

(** The default type in front of the registry, the selection naming a type:
    what the selection needs to keep naming one. *)
Definition sound_selection (st : AppState) : Prop :=
  defaults_first (assetTypes st) = true
  /\ (exists d, In d (assetTypes st) /\ isDefault d = true)
  /\ exists t, findById (selectedType st) (assetTypes st) = Some t.

(** The character of a decimal digit, and the digit of a character. *)
Definition digit_char (k : Z) : ascii := ascii_of_nat (48 + Z.to_nat k).

Definition digit_value (c : ascii) : Z := Z.of_nat (nat_of_ascii c) - 48.

(** The number a string of digits stands for, read from the left on top of
    [acc]. *)
Fixpoint decimal_value (s : string) (acc : Z) : Z :=
  match s with
  | EmptyString => acc
  | String c r => decimal_value r (10 * acc + digit_value c)
  end.

(** The two digits of a number below 100. *)
Definition two_digits (k : Z) : string :=
  String (digit_char (k / 10)) (String (digit_char (k mod 10)) EmptyString).

(** The number a formatted sequence stands for: its decimal digits read
    back, leading zeros included. *)
Definition parseNum (formattedNum : string) : option Z :=
  option_map Z.of_uint (NilEmpty.uint_of_string formattedNum).

(** ** Strings *)

Section StringFacts.

Lemma length_app (a b : string) :
  String.length (a ++ b) = (String.length a + String.length b)%nat.
Proof. induction a as [|c a IH]; simpl; [reflexivity | now rewrite IH]. Qed.

Lemma app_assoc_string (a b c : string) : (a ++ b) ++ c = a ++ (b ++ c).
Proof. induction a as [|x a IH]; simpl; [reflexivity | now rewrite IH]. Qed.

Lemma substring0_app (a b : string) :
  Js.substring0 (String.length a) (a ++ b) = a.
Proof.
  unfold Js.substring0.
  induction a as [|c a IH]; simpl.
  - now destruct b.
  - now rewrite IH.
Qed.

Lemma length_substring (s : string) :
  forall n m, String.length (substring n m s) = Nat.min m (String.length s - n).
Proof.
  induction s as [|c s IH]; intros [|n] [|m]; simpl; try reflexivity.
  - now rewrite IH, Nat.sub_0_r.
  - apply IH.
  - apply IH.
Qed.

Lemma length_slice_last (n : nat) (s : string) :
  (n <= String.length s)%nat -> String.length (Js.slice_last n s) = n.
Proof.
  intros H. unfold Js.slice_last. rewrite length_substring. lia.
Qed.

(** The decimal notation of a number from 10 on has at least two digits. *)
Lemma length_toString_ge_10 (z : Z) :
  10 <= z -> (2 <= String.length (Js.toString z))%nat.
Proof.
  intros Hz. destruct z as [|p|p]; try lia.
  unfold Js.toString, Z.to_int, NilZero.string_of_int.
  pose proof (DecimalPos.Unsigned.of_to p) as Hp.
  destruct (Pos.to_uint p) as [|u|u|u|u|u|u|u|u|u|u];
    try discriminate Hp;
    (destruct u as [|u|u|u|u|u|u|u|u|u|u];
     [ exfalso; cbn in Hp;
       first [discriminate Hp | injection Hp as Hp; lia]
     | simpl; lia .. ]).
Qed.

Lemma length_yearOf (now : Date) :
  10 <= getFullYear now -> String.length (yearOf now) = 2%nat.
Proof.
  intros H. unfold yearOf. apply length_slice_last.
  now apply length_toString_ge_10.
Qed.

Lemma length_monthOf (now : Date) :
  0 <= getMonth now <= 11 -> String.length (monthOf now) = 2%nat.
Proof.
  intros H. unfold monthOf.
  assert (Hin : In (getMonth now) [0; 1; 2; 3; 4; 5; 6; 7; 8; 9; 10; 11])
    by (simpl; lia).
  simpl in Hin.
  repeat (destruct Hin as [<- | Hin]; [reflexivity |]).
  contradiction.
Qed.

Lemma length_keyPrefixOf (assetType : AssetType) (now : Date) :
  wall_clock now ->
  String.length (keyPrefixOf assetType now)
  = (String.length (prefix assetType) + 4)%nat.
Proof.
  intros [Hy Hm]. unfold keyPrefixOf.
  rewrite !length_app, length_yearOf, length_monthOf by assumption. lia.
Qed.

(** What [handleGenerate] cuts out of the asset number is the key the
    generator looked up. *)
Lemma commit_key (assetType : AssetType) (now : Date) (formattedNum : string) :
  wall_clock now ->
  Js.substring0 (String.length (prefix assetType) + 4)
                (keyPrefixOf assetType now ++ formattedNum)
  = keyPrefixOf assetType now.
Proof.
  intros H. rewrite <- (length_keyPrefixOf assetType now H).
  apply substring0_app.
Qed.

End StringFacts.

(** ** Maps *)

Section MapFacts.

#[local] Open Scope list_scope.

Lemma Map_get_None (k : string) (m : JsMap) :
  Map_get k m = None <-> ~ In k (map fst m).
Proof.
  induction m as [|[k' v'] m IH]; simpl.
  - tauto.
  - destruct (String.eqb_spec k' k) as [->|Hne].
    + split; [discriminate | intros H; exfalso; apply H; now left].
    + rewrite IH. tauto.
Qed.

Lemma Map_get_set_eq (k : string) (v : Z) (m : JsMap) :
  Map_get k (Map_set k v m) = Some v.
Proof.
  induction m as [|[k' v'] m IH]; simpl.
  - now rewrite String.eqb_refl.
  - destruct (String.eqb k' k) eqn:E; simpl; rewrite E; [reflexivity | exact IH].
Qed.

Lemma Map_get_set_ne (k k' : string) (v : Z) (m : JsMap) :
  k <> k' -> Map_get k' (Map_set k v m) = Map_get k' m.
Proof.
  intros Hne. induction m as [|[k0 v0] m IH]; simpl.
  - destruct (String.eqb_spec k k'); [contradiction | reflexivity].
  - destruct (String.eqb_spec k0 k) as [->|Hk]; simpl.
    + destruct (String.eqb_spec k k'); [contradiction | reflexivity].
    + now rewrite IH.
Qed.

(** Setting a new key appends the entry. *)
Lemma Map_set_fresh (k : string) (v : Z) (m : JsMap) :
  ~ In k (map fst m) -> Map_set k v m = m ++ [(k, v)].
Proof.
  induction m as [|[k' v'] m IH]; simpl; intros H.
  - reflexivity.
  - destruct (String.eqb_spec k' k) as [->|Hk].
    + exfalso. apply H. now left.
    + rewrite IH; [reflexivity | tauto].
Qed.

(** Setting a key that is present leaves the order of the keys alone. *)
Lemma Map_set_keys_present (k : string) (v : Z) (m : JsMap) :
  In k (map fst m) -> map fst (Map_set k v m) = map fst m.
Proof.
  induction m as [|[k' v'] m IH]; simpl; intros H.
  - contradiction.
  - destruct (String.eqb_spec k' k) as [->|Hk]; simpl.
    + reflexivity.
    + rewrite IH; [reflexivity | destruct H; [contradiction | assumption]].
Qed.

Lemma Map_set_wf (k : string) (v : Z) (m : JsMap) :
  Map_wf m -> Map_wf (Map_set k v m).
Proof.
  unfold Map_wf. intros Hwf.
  destruct (in_dec string_dec k (map fst m)) as [Hin|Hout].
  - now rewrite Map_set_keys_present.
  - rewrite Map_set_fresh, map_app by assumption. simpl.
    apply NoDup_app; [assumption | repeat constructor; intros [] |].
    intros x Hx [<-|[]]. contradiction.
Qed.

Lemma Map_new_from (pairs : list (string * Z)) :
  forall acc,
    NoDup (map fst (acc ++ pairs)) ->
    fold_left (fun m kv => Map_set (fst kv) (snd kv) m) pairs acc = acc ++ pairs.
Proof.
  induction pairs as [|[k v] pairs IH]; intros acc Hnd; simpl.
  - now rewrite app_nil_r.
  - assert (Hfresh : ~ In k (map fst acc)).
    { rewrite map_app in Hnd. simpl in Hnd.
      apply NoDup_remove_2 in Hnd. intros Hin. apply Hnd.
      apply in_or_app. now left. }
    rewrite Map_set_fresh by assumption.
    rewrite IH; rewrite <- app_assoc; simpl; [reflexivity | assumption].
Qed.

(** Copying a map, or writing its entries out and reading them back, gives
    the same entries in the same order. *)
Lemma Map_new_entries (m : JsMap) : Map_wf m -> Map_new (Map_entries m) = m.
Proof.
  intros Hwf. unfold Map_new, Map_entries.
  now rewrite Map_new_from.
Qed.

Lemma Map_new_wf (pairs : list (string * Z)) : Map_wf (Map_new pairs).
Proof.
  unfold Map_new.
  assert (H : forall acc, Map_wf acc ->
            Map_wf (fold_left (fun m kv => Map_set (fst kv) (snd kv) m) pairs acc)).
  { induction pairs as [|kv pairs IH]; intros acc Hacc; simpl.
    - assumption.
    - apply IH. now apply Map_set_wf. }
  apply H. constructor.
Qed.

End MapFacts.

(** ** Running the generator and the handlers *)

Section Running.

Variable clk : nat -> Date.

Lemma run_bind {A B : Type} (m : io A) (f : A -> io B) :
  forall w, run clk (bind m f) w = run clk (f (fst (run clk m w))) (snd (run clk m w)).
Proof.
  induction m as [a | k IH | msg k IH | msg k IH]; intros w; simpl.
  - reflexivity.
  - apply IH.
  - apply IH.
  - apply IH.
Qed.

(** The two ways out of the generator. *)
Lemma run_generate_next (assetType : AssetType) (counters : JsMap) (w : World) :
  let now := clk (clockReads w) in
  let nextNumber := lastUsedNumberOf assetType counters now + 1 in
  nextNumber <= rangeEnd assetType ->
  run clk (generateNextAssetNumber assetType counters) w
  = (Some (mkGenerated (keyPrefixOf assetType now ++ formatNum nextNumber) nextNumber),
     tick w).
Proof.
  intros now nextNumber H. unfold generateNextAssetNumber. simpl.
  fold now. fold nextNumber.
  destruct (Z.ltb_spec (rangeEnd assetType) nextNumber); [lia | reflexivity].
Qed.

Lemma run_generate_full (assetType : AssetType) (counters : JsMap) (w : World) :
  let now := clk (clockReads w) in
  rangeEnd assetType < lastUsedNumberOf assetType counters now + 1 ->
  run clk (generateNextAssetNumber assetType counters) w
  = (None, alerted (exhaustedAlert assetType now)
             (warned (exhaustedWarning assetType now) (tick w))).
Proof.
  intros now H. unfold generateNextAssetNumber. simpl. fold now.
  destruct (Z.ltb_spec (rangeEnd assetType)
              (lastUsedNumberOf assetType counters now + 1)); [reflexivity | lia].
Qed.

(** A successful result is the one of [run_generate_next]. *)
Lemma run_generate_Some (assetType : AssetType) (counters : JsMap) (w : World)
    (r : Generated) :
  let now := clk (clockReads w) in
  fst (run clk (generateNextAssetNumber assetType counters) w) = Some r ->
  lastUsedNumberOf assetType counters now + 1 <= rangeEnd assetType
  /\ r = mkGenerated
           (keyPrefixOf assetType now
            ++ formatNum (lastUsedNumberOf assetType counters now + 1))
           (lastUsedNumberOf assetType counters now + 1).
Proof.
  intros now H.
  destruct (Z.le_gt_cases (lastUsedNumberOf assetType counters now + 1)
              (rangeEnd assetType)) as [Hle | Hgt].
  - rewrite run_generate_next in H by exact Hle. simpl in H.
    injection H as <-. split; [exact Hle | reflexivity].
  - rewrite run_generate_full in H by exact Hgt. discriminate H.
Qed.

(** [handleGenerate] when a number is left: the counter of the period moves
    to the number handed out. *)
Lemma run_handleGenerate_next (st : AppState) (asset : AssetType) (w : World) :
  let now := clk (clockReads w) in
  let nextNumber := lastUsedNumberOf asset (lastGeneratedCounters st) now + 1 in
  findById (selectedType st) (assetTypes st) = Some asset ->
  Map_wf (lastGeneratedCounters st) ->
  wall_clock now ->
  nextNumber <= rangeEnd asset ->
  run clk (handleGenerate st) w
  = (setGeneratedNumber (keyPrefixOf asset now ++ formatNum nextNumber)
       (setLastGeneratedCounters (Map_set (keyPrefixOf asset now) nextNumber) st),
     tick w).
Proof.
  intros now nextNumber Hfind Hwf Hclock Hle.
  unfold handleGenerate. rewrite Hfind, run_bind.
  rewrite run_generate_next by exact Hle. simpl.
  fold now. fold nextNumber.
  rewrite commit_key by exact Hclock.
  unfold setLastGeneratedCounters. now rewrite Map_new_entries.
Qed.

Lemma run_handleGenerate_full (st : AppState) (asset : AssetType) (w : World) :
  let now := clk (clockReads w) in
  findById (selectedType st) (assetTypes st) = Some asset ->
  rangeEnd asset < lastUsedNumberOf asset (lastGeneratedCounters st) now + 1 ->
  run clk (handleGenerate st) w
  = (setGeneratedNumber "" st,
     alerted (exhaustedAlert asset now) (warned (exhaustedWarning asset now) (tick w))).
Proof.
  intros now Hfind Hgt.
  unfold handleGenerate. rewrite Hfind, run_bind.
  now rewrite run_generate_full by exact Hgt.
Qed.

End Running.

Lemma lastUsedNumberOf_absent (assetType : AssetType) (counters : JsMap) (now : Date) :
  Map_get (keyPrefixOf assetType now) counters = None ->
  lastUsedNumberOf assetType counters now = rangeStart assetType - 1.
Proof. intros H. unfold lastUsedNumberOf. now rewrite H. Qed.

Lemma lastUsedNumberOf_present (assetType : AssetType) (counters : JsMap) (now : Date)
    (n : Z) :
  Map_get (keyPrefixOf assetType now) counters = Some n ->
  lastUsedNumberOf assetType counters now = n.
Proof. intros H. unfold lastUsedNumberOf. now rewrite H. Qed.

(** ** The first number of a period *)

(** C1. When the key of the current period is absent from the counters of a
    type with [rangeStart <= rangeEnd], both of them safe integers, the
    generator succeeds with [prefix ++ YY ++ MM ++] the range start padded
    to four digits, and [handleGenerate] stores the range start under that
    key. For the laptop type in June 2024 with no counters the number is
    [LT24060001], the counters become [LT2406 -> 1], and the next number is
    [LT24060002]. *)
Theorem first_number_of_period :
  (forall (clk : nat -> Date) (st : AppState) (asset : AssetType) (w : World),
      let now := clk (clockReads w) in
      let number :=
        prefix asset ++ yearOf now ++ monthOf now
        ++ Js.padStart 4 "0" (Js.toString (rangeStart asset)) in
      findById (selectedType st) (assetTypes st) = Some asset ->
      Map_wf (lastGeneratedCounters st) ->
      wall_clock now ->
      safe_type asset ->
      rangeStart asset <= rangeEnd asset ->
      Map_get (keyPrefixOf asset now) (lastGeneratedCounters st) = None ->
      fst (run clk (generateNextAssetNumber asset (lastGeneratedCounters st)) w)
      = Some (mkGenerated number (rangeStart asset))
      /\ generatedNumber (fst (run clk (handleGenerate st) w)) = number
      /\ lastGeneratedCounters (fst (run clk (handleGenerate st) w))
         = List.app (lastGeneratedCounters st)
             [(prefix asset ++ yearOf now ++ monthOf now, rangeStart asset)]
      /\ Map_get (prefix asset ++ yearOf now ++ monthOf now)
           (lastGeneratedCounters (fst (run clk (handleGenerate st) w)))
         = Some (rangeStart asset))
  /\ (let st1 := fst (run (frozen june2024) (handleGenerate initialState) world0) in
      let st2 := fst (run (frozen june2024) (handleGenerate st1) world0) in
      lastGeneratedCounters initialState = []
      /\ generatedNumber st1 = "LT24060001"
      /\ lastGeneratedCounters st1 = [("LT2406", 1)]
      /\ generatedNumber st2 = "LT24060002").
Proof.
  split.
  - intros clk st asset w now number Hfind Hwf Hclock _ Hrange Habsent.
    pose proof (lastUsedNumberOf_absent _ _ _ Habsent) as Hlast.
    assert (Hnext : lastUsedNumberOf asset (lastGeneratedCounters st) now + 1
                    = rangeStart asset) by lia.
    assert (Hnum : keyPrefixOf asset now ++ formatNum (rangeStart asset) = number).
    { unfold number, keyPrefixOf, formatNum. now rewrite !app_assoc_string. }
    rewrite (run_handleGenerate_next clk st asset w Hfind Hwf Hclock)
      by (fold now; lia).
    rewrite run_generate_next by (fold now; lia).
    fold now. rewrite Hnext, Hnum. simpl.
    rewrite Map_set_fresh by (now apply Map_get_None).
    repeat split.
    rewrite <- (Map_set_fresh (keyPrefixOf asset now) (rangeStart asset))
      by (now apply Map_get_None).
    apply Map_get_set_eq.
  - vm_compute. repeat split.
Qed.

(** The laptop type on an empty store in June 2024. *)
Lemma first_number_of_period_witness :
  fst (run (frozen june2024)
         (generateNextAssetNumber laptop (lastGeneratedCounters initialState)) world0)
  = Some (mkGenerated "LT24060001" 1).
Proof.
  apply (proj1 first_number_of_period (frozen june2024) initialState laptop world0).
  - reflexivity.
  - constructor.
  - unfold wall_clock; simpl; lia.
  - repeat split; reflexivity.
  - simpl; lia.
  - reflexivity.
Defined.

(** ** Exhaustion *)

(** C2. When the counter of the current period holds [rangeEnd], for a
    type whose range bounds are safe integers, the generator returns
    nothing, warns on the console and alerts with the message naming the
    range, the type and the period; [handleGenerate] clears the displayed
    number and leaves the counters as they were. *)
Theorem exhausted_leaves_counters (clk : nat -> Date) (st : AppState)
    (asset : AssetType) (w : World) :
  let now := clk (clockReads w) in
  findById (selectedType st) (assetTypes st) = Some asset ->
  safe_type asset ->
  Map_get (keyPrefixOf asset now) (lastGeneratedCounters st) = Some (rangeEnd asset) ->
  run clk (generateNextAssetNumber asset (lastGeneratedCounters st)) w
  = (None,
     mkWorld (S (clockReads w))
       (List.app (console w)
          ["Range " ++ Js.toString (rangeStart asset) ++ "-"
           ++ Js.toString (rangeEnd asset) ++ " exhausted for "
           ++ prefix asset ++ yearOf now ++ monthOf now ++ "."])
       (List.app (alerts w)
          ["Error: The number range (" ++ Js.toString (rangeStart asset) ++ "-"
           ++ Js.toString (rangeEnd asset) ++ ") for " ++ name asset
           ++ " (" ++ prefix asset ++ ") is full for the current month ("
           ++ yearOf now ++ "-" ++ monthOf now ++ ")."]))
  /\ fst (run clk (handleGenerate st) w) = setGeneratedNumber "" st
  /\ lastGeneratedCounters (fst (run clk (handleGenerate st) w))
     = lastGeneratedCounters st.
Proof.
  intros now Hfind _ Hlast.
  assert (Hgt : rangeEnd asset
                < lastUsedNumberOf asset (lastGeneratedCounters st) now + 1).
  { rewrite (lastUsedNumberOf_present _ _ _ _ Hlast). lia. }
  rewrite (run_handleGenerate_full clk st asset w Hfind Hgt).
  rewrite run_generate_full by exact Hgt.
  split; [| split; reflexivity].
  unfold alerted, warned, tick, exhaustedAlert, exhaustedWarning, keyPrefixOf.
  simpl. fold now. now rewrite !app_assoc_string.
Qed.

(** The laptop range used up in June 2024. *)
Lemma exhausted_leaves_counters_witness :
  snd (run (frozen june2024)
         (generateNextAssetNumber laptop (lastGeneratedCounters fullJune)) world0)
  = mkWorld 1 ["Range 1-1000 exhausted for LT2406."]
      ["Error: The number range (1-1000) for Laptop (LT) is full for the current month (24-06)."]
  /\ lastGeneratedCounters (fst (run (frozen june2024) (handleGenerate fullJune) world0))
     = [("LT2406", 1000)].
Proof.
  destruct (exhausted_leaves_counters (frozen june2024) fullJune laptop world0)
    as (Hgen & _ & Hkeep);
    [reflexivity | repeat split; reflexivity | reflexivity |].
  split.
  - rewrite Hgen. reflexivity.
  - rewrite Hkeep. reflexivity.
Defined.

(** ** The clock *)

(** C3, as stated, fails: the timestamp is not an argument of the generator,
    which reads the wall clock itself. The same asset type and the same
    counters give one number in June 2024 and another in July 2024. *)
Lemma generate_reads_the_clock :
  fst (run (frozen june2024) (generateNextAssetNumber laptop []) world0)
  = Some (mkGenerated "LT24060001" 1)
  /\ fst (run (frozen july2024) (generateNextAssetNumber laptop []) world0)
     = Some (mkGenerated "LT24070001" 1)
  /\ fst (run (frozen june2024) (generateNextAssetNumber laptop []) world0)
     <> fst (run (frozen july2024) (generateNextAssetNumber laptop []) world0).
Proof.
  split; [reflexivity | split; [reflexivity | discriminate]].
Qed.

(** C3, amended. The generator reads the clock exactly once, and with its
    two arguments and that one reading fixed, its result and its messages
    are fixed; so are the state and the messages of [handleGenerate]. *)
Theorem generate_fixed_by_one_reading (clk1 clk2 : nat -> Date)
    (assetType : AssetType) (counters : JsMap) (st : AppState) (w : World) :
  clk1 (clockReads w) = clk2 (clockReads w) ->
  run clk1 (generateNextAssetNumber assetType counters) w
  = run clk2 (generateNextAssetNumber assetType counters) w
  /\ clockReads (snd (run clk1 (generateNextAssetNumber assetType counters) w))
     = S (clockReads w)
  /\ run clk1 (handleGenerate st) w = run clk2 (handleGenerate st) w.
Proof.
  intros Hsame.
  assert (Hgen : forall a c,
             run clk1 (generateNextAssetNumber a c) w
             = run clk2 (generateNextAssetNumber a c) w).
  { intros a c. unfold generateNextAssetNumber. simpl. rewrite Hsame.
    destruct (rangeEnd a <? _); reflexivity. }
  split; [apply Hgen | split].
  - unfold generateNextAssetNumber. simpl.
    destruct (rangeEnd assetType <? _); reflexivity.
  - unfold handleGenerate.
    destruct (findById (selectedType st) (assetTypes st)) as [asset|];
      [| reflexivity].
    rewrite !run_bind, Hgen.
    destruct (fst (run clk2 (generateNextAssetNumber asset (lastGeneratedCounters st)) w));
      reflexivity.
Qed.

(** Two clocks that agree on the first reading only. *)
Lemma generate_fixed_by_one_reading_witness :
  run (fun n => match n with O => june2024 | _ => july2024 end)
      (handleGenerate initialState) world0
  = run (frozen june2024) (handleGenerate initialState) world0.
Proof.
  apply (generate_fixed_by_one_reading
           (fun n => match n with O => june2024 | _ => july2024 end)
           (frozen june2024) laptop [] initialState world0).
  reflexivity.
Defined.

(** ** The key that is read and the key that is written *)



(** Why the clock matters here: in the years 0 to 9 the year string has a
    single character, and the first [prefix.length + 4] characters of the
    number run one digit into the sequence. *)
Example one_digit_year :
  keyPrefixOf laptop (mkDate 5 5) = "LT506"
  /\ fst (run (frozen (mkDate 5 5)) (generateNextAssetNumber laptop []) world0)
     = Some (mkGenerated "LT5060001" 1)
  /\ Js.substring0 (String.length (prefix laptop) + 4) "LT5060001" = "LT5060".
Proof. repeat split. Qed.

(** ** Counters only grow *)

Lemma keyPrefixOf_same_period (asset : AssetType) (d1 d2 : Date) :
  same_period d1 d2 -> keyPrefixOf asset d1 = keyPrefixOf asset d2.
Proof. intros [Hy Hm]. unfold keyPrefixOf. now rewrite Hy, Hm. Qed.

Lemma lastUsedNumberOf_same_period (asset : AssetType) (counters : JsMap)
    (d1 d2 : Date) :
  same_period d1 d2 ->
  lastUsedNumberOf asset counters d1 = lastUsedNumberOf asset counters d2.
Proof.
  intros H. unfold lastUsedNumberOf. now rewrite (keyPrefixOf_same_period _ _ _ H).
Qed.

Lemma lastUsedNumberOf_set (asset : AssetType) (counters : JsMap) (now : Date) (n : Z) :
  lastUsedNumberOf asset (Map_set (keyPrefixOf asset now) n counters) now = n.
Proof. unfold lastUsedNumberOf. now rewrite Map_get_set_eq. Qed.

Section Consecutive.

Variable clk : nat -> Date.
Variable asset : AssetType.
Variable now : Date.
Hypothesis clock_ok : forall i, wall_clock (clk i) /\ same_period (clk i) now.

(** [n] clicks while [n] numbers are left: the numbers displayed are the
    [n] successors of the last used one, in order. *)
Lemma run_generateMany (n : nat) :
  forall (st : AppState) (w : World),
    findById (selectedType st) (assetTypes st) = Some asset ->
    Map_wf (lastGeneratedCounters st) ->
    lastUsedNumberOf asset (lastGeneratedCounters st) now + Z.of_nat n
    <= rangeEnd asset ->
    let lastUsed := lastUsedNumberOf asset (lastGeneratedCounters st) now in
    let final := snd (fst (run clk (generateMany n st) w)) in
    fst (fst (run clk (generateMany n st) w))
    = map (fun i => keyPrefixOf asset now ++ formatNum (lastUsed + Z.of_nat i))
          (seq 1 n)
    /\ lastUsedNumberOf asset (lastGeneratedCounters final) now
       = lastUsed + Z.of_nat n
    /\ forall k, k <> keyPrefixOf asset now ->
         Map_get k (lastGeneratedCounters final)
         = Map_get k (lastGeneratedCounters st).
Proof.
  induction n as [|n IH]; intros st w Hfind Hwf Hroom lastUsed final.
  - split; [reflexivity | split; [| reflexivity]].
    unfold final, lastUsed. simpl. lia.
  - destruct (clock_ok (clockReads w)) as [Hclock Hperiod].
    pose proof (keyPrefixOf_same_period asset _ _ Hperiod) as Hkey.
    pose proof (lastUsedNumberOf_same_period asset (lastGeneratedCounters st)
                  _ _ Hperiod) as Hlast.
    assert (Hstep := run_handleGenerate_next clk st asset w Hfind Hwf Hclock).
    cbv zeta in Hstep. rewrite Hkey, Hlast in Hstep. fold lastUsed in Hstep.
    specialize (Hstep ltac:(unfold lastUsed; lia)).
    unfold final. clear final. simpl generateMany.
    rewrite !run_bind, Hstep. cbn [fst snd run].
    set (st' := setGeneratedNumber _ _) in *.
    destruct (IH st' (tick w)) as (Hnums & Hfinal & Hother).
    + exact Hfind.
    + apply Map_set_wf. exact Hwf.
    + unfold st'. cbn [lastGeneratedCounters setGeneratedNumber setLastGeneratedCounters].
      rewrite lastUsedNumberOf_set. unfold lastUsed. lia.
    + assert (Hlast' : lastUsedNumberOf asset (lastGeneratedCounters st') now
                       = lastUsed + 1) by apply lastUsedNumberOf_set.
      rewrite Hlast' in Hnums, Hfinal.
      split; [| split].
      * rewrite Hnums.
        change (seq 1 (S n)) with (1%nat :: seq 2 n).
        rewrite <- (seq_shift n 1). cbn [map]. rewrite map_map.
        apply f_equal2; [reflexivity |].
        apply map_ext. intros i. do 2 f_equal. lia.
      * rewrite Hfinal. lia.
      * intros k Hk. rewrite (Hother k Hk). unfold st'.
        cbn [lastGeneratedCounters setGeneratedNumber setLastGeneratedCounters].
        apply Map_get_set_ne. congruence.
Qed.

End Consecutive.

(** ** Saving and loading the counters *)

(** C9. Writing the counters out as an array of pairs and building a map
    from that array gives the counters back, entry for entry and in the
    same order. A [Map] never holds a key twice, which is [Map_wf]; every
    map the program makes, by [new Map] and [set], is of that kind. *)
Theorem counters_round_trip :
  (forall counters : JsMap,
      Map_wf counters ->
      loadCounters (Some (saveCounters counters)) = counters
      /\ Map_entries (loadCounters (Some (saveCounters counters)))
         = Map_entries counters
      /\ forall k, Map_get k (loadCounters (Some (saveCounters counters)))
                   = Map_get k counters)
  /\ (forall (pairs : list (string * Z)) (k : string) (v : Z),
         loadCounters (Some (saveCounters (Map_new pairs))) = Map_new pairs
         /\ loadCounters (Some (saveCounters (Map_set k v (Map_new pairs))))
            = Map_set k v (Map_new pairs)).
Proof.
  assert (Hround : forall counters, Map_wf counters ->
             loadCounters (Some (saveCounters counters)) = counters).
  { intros counters Hwf. unfold loadCounters, saveCounters.
    now apply Map_new_entries. }
  split.
  - intros counters Hwf. rewrite (Hround counters Hwf). repeat split.
  - intros pairs k v. split; apply Hround.
    + apply Map_new_wf.
    + apply Map_set_wf, Map_new_wf.
Qed.

Lemma counters_round_trip_witness :
  loadCounters (Some (saveCounters [("PC2406", 1007); ("LT2406", 3); ("LT2407", 1)]))
  = [("PC2406", 1007); ("LT2406", 3); ("LT2407", 1)].
Proof.
  apply (proj1 counters_round_trip [("PC2406", 1007); ("LT2406", 3); ("LT2407", 1)]).
  repeat constructor; simpl; intuition discriminate.
Defined.

(** ** Adding a type *)

Section Adding.

#[local] Open Scope list_scope.

(** The running maximum of [reduce], from any start value. *)
Lemma fold_max_spec (types : list AssetType) :
  forall acc,
    let m := fold_left (fun max type => Z.max max (rangeEnd type)) types acc in
    acc <= m
    /\ (forall t, In t types -> rangeEnd t <= m)
    /\ (m = acc \/ exists t, In t types /\ rangeEnd t = m).
Proof.
  induction types as [|u types IH]; intros acc; simpl.
  - split; [lia | split; [intros t [] | now left]].
  - destruct (IH (Z.max acc (rangeEnd u))) as (Hacc & Hall & Hwho).
    split; [lia | split].
    + intros t [<- | Hin]; [lia | now apply Hall].
    + destruct Hwho as [Hm | (t & Hin & Ht)].
      * destruct (Z.max_spec acc (rangeEnd u)) as [[_ Hmax] | [_ Hmax]].
        -- right. exists u. split; [now left | congruence].
        -- left. congruence.
      * right. exists t. split; [now right | exact Ht].
Qed.

Lemma maxRangeEndOf_spec (types : list AssetType) :
  0 <= maxRangeEndOf types
  /\ (forall t, In t types -> rangeEnd t <= maxRangeEndOf types)
  /\ (maxRangeEndOf types = 0
      \/ exists t, In t types /\ rangeEnd t = maxRangeEndOf types).
Proof. exact (fold_max_spec types 0). Qed.

(** How [handleAddAssetType] ends: with one alert and the state untouched,
    or silently with the new type appended. *)
Lemma handleAddAssetType_cases (st : AppState) :
  let trimmedName := Js.trim (fst (newAssetType st)) in
  let trimmedPrefix := Js.toUpperCase (Js.trim (snd (newAssetType st))) in
  (exists msg, handleAddAssetType st = Alert msg (Ret st))
  \/ (Js.truthy trimmedName = true
      /\ (2 <= String.length trimmedPrefix <= 3)%nat
      /\ prefixExists (assetTypes st) trimmedPrefix = false
      /\ nameExists (assetTypes st) trimmedName = false
      /\ handleAddAssetType st
         = Ret (setShowAddForm false
                  (setNewAssetType ("", "")
                     (setAssetTypes
                        (fun prev =>
                           prev ++ [newTypeToAdd (assetTypes st) trimmedName trimmedPrefix])
                        st)))).
Proof.
  intros trimmedName trimmedPrefix. unfold handleAddAssetType.
  fold trimmedName. fold trimmedPrefix.
  destruct (Js.truthy trimmedName) eqn:Hn; cbn [andb negb].
  2:{ left. eexists. reflexivity. }
  destruct (Js.truthy trimmedPrefix) eqn:Hp; cbn [andb negb].
  2:{ left. eexists. reflexivity. }
  destruct (2 <=? String.length trimmedPrefix)%nat eqn:H2; cbn [andb negb].
  2:{ left. eexists. reflexivity. }
  destruct (String.length trimmedPrefix <=? 3)%nat eqn:H3; cbn [andb negb].
  2:{ left. eexists. reflexivity. }
  apply Nat.leb_le in H2, H3.
  destruct (prefixExists (assetTypes st) trimmedPrefix) eqn:Hpe.
  { left. eexists. reflexivity. }
  destruct (nameExists (assetTypes st) trimmedName) eqn:Hne.
  { left. eexists. reflexivity. }
  right. repeat split; assumption.
Qed.

(** A silent end is the successful one. *)
Lemma handleAddAssetType_Ret (st st' : AppState) :
  handleAddAssetType st = Ret st' ->
  let trimmedName := Js.trim (fst (newAssetType st)) in
  let trimmedPrefix := Js.toUpperCase (Js.trim (snd (newAssetType st))) in
  Js.truthy trimmedName = true
  /\ (2 <= String.length trimmedPrefix <= 3)%nat
  /\ prefixExists (assetTypes st) trimmedPrefix = false
  /\ nameExists (assetTypes st) trimmedName = false
  /\ assetTypes st'
     = assetTypes st ++ [newTypeToAdd (assetTypes st) trimmedName trimmedPrefix]
  /\ lastGeneratedCounters st' = lastGeneratedCounters st.
Proof.
  intros Hret trimmedName trimmedPrefix.
  destruct (handleAddAssetType_cases st) as [[msg Hmsg] | (Hn & Hlen & Hp & Hne & Hok)].
  - rewrite Hmsg in Hret. discriminate Hret.
  - fold trimmedName trimmedPrefix in Hn, Hlen, Hp, Hne, Hok.
    rewrite Hok in Hret. injection Hret as <-.
    repeat split; assumption || lia.
Qed.

End Adding.

(** C7, as stated, fails on a registry whose ranges all end below zero:
    [reduce] starts from 0, so the new range is [1, 1000] and not
    [-5 + 1, -5 + 1000]. *)
Lemma added_range_after_ranges_below_zero :
  assetTypes belowZero = [returnsType]
  /\ rangeEnd returnsType = -5
  /\ handleAddAssetType belowZero
     = Ret (mkAppState
              [returnsType;
               mkAssetType "server" "Server" "SV" HardDrive "default" 1 1000 false]
              [] "returns" false ("", "") "")
  /\ 1 <> rangeEnd returnsType + 1.
Proof.
  split; [reflexivity | split; [reflexivity | split; [reflexivity | discriminate]]].
Qed.

(** C7, amended. While the existing range bounds are safe integers and
    every range end leaves room for a thousand numbers below [2^53], a
    successful add appends a type with the range
    [M + 1, M + 1000], where [M] is the largest of 0 and the existing range
    ends; [M] is the largest existing range end as soon as one of them is
    not negative. The two bounds are safe integers, and no number of the
    new range lies in the range of an existing type. *)
Theorem added_range_follows_the_highest (st st' : AppState) :
  handleAddAssetType st = Ret st' ->
  (forall u, In u (assetTypes st) -> safe_type u /\ rangeEnd u + 1000 < 2 ^ 53) ->
  exists (t : AssetType) (M : Z),
    assetTypes st' = List.app (assetTypes st) [t]
    /\ rangeStart t = M + 1
    /\ rangeEnd t = M + 1000
    /\ 0 <= M
    /\ (forall u, In u (assetTypes st) -> rangeEnd u <= M)
    /\ (M = 0 \/ exists u, In u (assetTypes st) /\ rangeEnd u = M)
    /\ ((exists u, In u (assetTypes st) /\ 0 <= rangeEnd u) ->
        exists u, In u (assetTypes st) /\ rangeEnd u = M)
    /\ (forall u x, In u (assetTypes st) -> in_range x u -> ~ in_range x t)
    /\ safe_type t.
Proof.
  intros Hret Hroom.
  destruct (handleAddAssetType_Ret st st' Hret) as (_ & _ & _ & _ & Htypes & _).
  destruct (maxRangeEndOf_spec (assetTypes st)) as (Hpos & Hall & Hwho).
  assert (Hmax : maxRangeEndOf (assetTypes st) + 1000 < 2 ^ 53).
  { destruct Hwho as [-> | (u & Hin & <-)]; [reflexivity | now apply Hroom]. }
  clear Hroom.
  eexists. exists (maxRangeEndOf (assetTypes st)).
  split; [exact Htypes |].
  unfold safe_type, safe_integer. cbn [rangeStart rangeEnd newTypeToAdd].
  split; [reflexivity | split; [lia | split; [exact Hpos | split; [exact Hall |]]]].
  split; [exact Hwho | split; [| split; [| lia]]].
  - intros (u & Hin & Hu). destruct Hwho as [H0 | Hex]; [| exact Hex].
    exists u. split; [exact Hin |]. specialize (Hall u Hin). lia.
  - intros u x Hin [_ Hx] [Hx' _]. cbn [rangeStart newTypeToAdd] in Hx'.
    specialize (Hall u Hin). lia.
Qed.

(** A server type added to the six defaults takes [6001, 7000]. *)
Lemma added_range_follows_the_highest_witness :
  exists (t : AssetType) (M : Z),
    assetTypes (setShowAddForm false
                  (setNewAssetType ("", "")
                     (setAssetTypes
                        (fun prev =>
                           List.app prev
                             [mkAssetType "server" "Server" "SV" HardDrive "default"
                                          6001 7000 false])
                        (addForm " Server" "sv "))))
    = List.app (assetTypes (addForm " Server" "sv ")) [t]
    /\ rangeStart t = M + 1
    /\ rangeEnd t = M + 1000
    /\ 0 <= M
    /\ (forall u, In u (assetTypes (addForm " Server" "sv ")) -> rangeEnd u <= M)
    /\ (M = 0 \/ exists u, In u (assetTypes (addForm " Server" "sv ")) /\ rangeEnd u = M)
    /\ ((exists u, In u (assetTypes (addForm " Server" "sv ")) /\ 0 <= rangeEnd u) ->
        exists u, In u (assetTypes (addForm " Server" "sv ")) /\ rangeEnd u = M)
    /\ (forall u x, In u (assetTypes (addForm " Server" "sv ")) ->
                    in_range x u -> ~ in_range x t)
    /\ safe_type t.
Proof.
  apply (added_range_follows_the_highest (addForm " Server" "sv ")).
  - reflexivity.
  - simpl. intros u Hu. intuition (subst; repeat split; reflexivity).
Defined.

(** C5 fails on the code: the id is made from the name alone and is not
    compared with the ids in the registry. On the default registry, whose
    ids are distinct, adding the name [Desktop] with the prefix [DT] passes
    every check and appends a second type with the id [desktop]. From then
    on the card of the new type cannot be told from the one of the default
    type: selecting it and generating gives a PC number, and its remove
    button is refused as if it were a default type. *)
Theorem added_id_repeats_an_existing_one :
  NoDup (map id (assetTypes initialState))
  /\ run (frozen june2024) (session addDesktop initialState) world0
     = (mkAppState
          (List.app defaultAssetTypes
             [mkAssetType "desktop" "Desktop" "DT" HardDrive "default" 6001 7000 false])
          [] "laptop" false ("", "") "",
        world0)
  /\ map id (assetTypes
               (fst (run (frozen june2024) (session addDesktop initialState) world0)))
     = ["laptop"; "desktop"; "keyboard"; "mouse"; "printer"; "storage"; "desktop"]
  /\ ~ NoDup (map id (assetTypes
                        (fst (run (frozen june2024)
                                (session addDesktop initialState) world0))))
  /\ generatedNumber
       (fst (run (frozen june2024)
               (session (List.app addDesktop [SelectCard 6; Generate]) initialState)
               world0))
     = "PC24061001"
  /\ run (frozen june2024)
         (session (List.app addDesktop [RemoveCard 6]) initialState) world0
     = (fst (run (frozen june2024) (session addDesktop initialState) world0),
        mkWorld 0 [] ["Default asset types cannot be removed."]).
Proof.
  split; [| split; [reflexivity | split; [reflexivity | split; [| split; reflexivity]]]].
  - repeat constructor; simpl; intuition discriminate.
  - intros Hnd. vm_compute in Hnd.
    apply NoDup_cons_iff in Hnd. destruct Hnd as [_ Hnd].
    apply NoDup_cons_iff in Hnd. destruct Hnd as [Hnotin _].
    apply Hnotin. simpl. tauto.
Qed.

(** ** Case *)

Section Case.

Lemma is_lower_bounds (c : ascii) :
  Js.is_lower c = true <-> (97 <= nat_of_ascii c <= 122)%nat.
Proof.
  unfold Js.is_lower. rewrite andb_true_iff, !Nat.leb_le. tauto.
Qed.

Lemma is_upper_bounds (c : ascii) :
  Js.is_upper c = true <-> (65 <= nat_of_ascii c <= 90)%nat.
Proof.
  unfold Js.is_upper. rewrite andb_true_iff, !Nat.leb_le. tauto.
Qed.

Lemma not_lower (c : ascii) : (nat_of_ascii c < 97)%nat -> Js.is_lower c = false.
Proof.
  intros H. destruct (Js.is_lower c) eqn:E; [| reflexivity].
  apply is_lower_bounds in E. lia.
Qed.

Lemma not_upper (c : ascii) : (90 < nat_of_ascii c)%nat -> Js.is_upper c = false.
Proof.
  intros H. destruct (Js.is_upper c) eqn:E; [| reflexivity].
  apply is_upper_bounds in E. lia.
Qed.

(** The small letter [c] and its capital [d]. *)
Lemma upper_of_pair (c d : ascii) :
  Js.is_lower c = true -> (nat_of_ascii d + 32 = nat_of_ascii c)%nat ->
  Js.upper_char c = d /\ Js.upper_char d = d
  /\ Js.lower_char c = c /\ Js.lower_char d = c.
Proof.
  intros Hc Hd. pose proof (proj1 (is_lower_bounds c) Hc) as Hb.
  unfold Js.upper_char, Js.lower_char.
  rewrite Hc, (not_lower d), (not_upper c) by lia.
  assert (Hu : Js.is_upper d = true) by (apply is_upper_bounds; lia).
  rewrite Hu, Hd, <- Hd.
  replace (nat_of_ascii d + 32 - 32)%nat with (nat_of_ascii d) by lia.
  rewrite Hd, !ascii_nat_embedding. now repeat split.
Qed.

Lemma case_variant_chars (c d : ascii) :
  case_variant c d ->
  Js.upper_char c = Js.upper_char d /\ Js.lower_char c = Js.lower_char d.
Proof.
  intros [-> | [[Hc Hd] | [Hd Hc]]].
  - now split.
  - destruct (upper_of_pair c d Hc Hd) as (-> & -> & -> & ->). now split.
  - destruct (upper_of_pair d c Hd Hc) as (-> & -> & -> & ->). now split.
Qed.

Lemma same_up_to_case_strings (s t : string) :
  same_up_to_case s t ->
  Js.toUpperCase s = Js.toUpperCase t /\ Js.toLowerCase s = Js.toLowerCase t.
Proof.
  induction 1 as [| c d s t Hcd _ [IHu IHl]]; [now split |].
  destruct (case_variant_chars c d Hcd) as [Hu Hl].
  unfold Js.toUpperCase, Js.toLowerCase in *. simpl.
  now rewrite Hu, Hl, IHu, IHl.
Qed.

(** Two characters with one lower case are the two cases of a letter. *)
Lemma lower_char_variant (c d : ascii) :
  Js.lower_char c = Js.lower_char d -> case_variant c d.
Proof.
  unfold Js.lower_char.
  destruct (Js.is_upper c) eqn:Hc, (Js.is_upper d) eqn:Hd; intros H.
  - left. apply is_upper_bounds in Hc, Hd.
    apply (f_equal nat_of_ascii) in H.
    rewrite !nat_ascii_embedding in H by lia.
    rewrite <- (ascii_nat_embedding c), <- (ascii_nat_embedding d).
    f_equal. lia.
  - right. right. apply is_upper_bounds in Hc. subst d.
    rewrite nat_ascii_embedding by lia.
    split; [| reflexivity].
    apply is_lower_bounds. rewrite nat_ascii_embedding; lia.
  - right. left. apply is_upper_bounds in Hd. subst c.
    rewrite nat_ascii_embedding by lia.
    split; [| reflexivity].
    apply is_lower_bounds. rewrite nat_ascii_embedding; lia.
  - left. exact H.
Qed.

Lemma toLowerCase_same (s : string) :
  forall t, Js.toLowerCase s = Js.toLowerCase t -> same_up_to_case s t.
Proof.
  unfold Js.toLowerCase.
  induction s as [|c s IH]; intros [|d t] H; simpl in H; try discriminate H.
  - constructor.
  - injection H as Hc Hs. constructor; [now apply lower_char_variant | now apply IH].
Qed.

Lemma prefixExists_spec (types : list AssetType) (P : string) :
  prefixExists types P = true
  <-> exists t, In t types /\ Js.toUpperCase (prefix t) = P.
Proof.
  unfold prefixExists. rewrite existsb_exists.
  split; intros (t & Hin & Ht); exists t; split; trivial; now apply String.eqb_eq.
Qed.

Lemma nameExists_spec (types : list AssetType) (N : string) :
  nameExists types N = true
  <-> exists t, In t types /\ Js.toLowerCase (name t) = Js.toLowerCase N.
Proof.
  unfold nameExists. rewrite existsb_exists.
  split; intros (t & Hin & Ht); exists t; split; trivial; now apply String.eqb_eq.
Qed.

(** On upper-case prefixes the check of the source is the exact match. *)
Lemma prefixExists_upper (types : list AssetType) (P : string) :
  upper_case_registry types ->
  prefixExists types P = prefixExists_exact types P.
Proof.
  intros Hupper. unfold prefixExists, prefixExists_exact.
  induction types as [|t types IH]; [reflexivity |].
  simpl. rewrite (Hupper t) by now left.
  rewrite IH; [reflexivity |]. intros u Hu. apply Hupper. now right.
Qed.

(** A form with a name and a prefix of two or three characters reaches
    the two duplicate checks. *)
Lemma handleAddAssetType_checks (st : AppState) :
  let trimmedName := Js.trim (fst (newAssetType st)) in
  let trimmedPrefix := Js.toUpperCase (Js.trim (snd (newAssetType st))) in
  Js.truthy trimmedName = true ->
  (2 <= String.length trimmedPrefix <= 3)%nat ->
  handleAddAssetType st
  = if prefixExists (assetTypes st) trimmedPrefix
    then Alert "Prefix already exists!" (Ret st)
    else if nameExists (assetTypes st) trimmedName
    then Alert "Name already exists!" (Ret st)
    else Ret (setShowAddForm false
                (setNewAssetType ("", "")
                   (setAssetTypes
                      (fun prev =>
                         List.app prev
                           [newTypeToAdd (assetTypes st) trimmedName trimmedPrefix])
                      st))).
Proof.
  intros trimmedName trimmedPrefix Hn [H2 H3]. unfold handleAddAssetType.
  fold trimmedName. fold trimmedPrefix.
  apply Nat.leb_le in H2, H3.
  destruct (Js.truthy trimmedPrefix) eqn:Hp.
  - now rewrite Hn, H2, H3.
  - destruct trimmedPrefix; [discriminate H2 | discriminate Hp].
Qed.

End Case.

(** C4. On the registry of the data model, whose prefixes are in upper
    case, and on ASCII text, the prefix check is the exact, case-sensitive
    match of the trimmed and upper-cased input against the stored prefixes,
    and the name check matches up to case. A prefix typed in another case
    than a stored one is upper-cased to that stored prefix and refused by
    the exact match; a name that differs in case only from a stored one is
    refused by the name check, once the prefix has passed. *)
Theorem duplicate_checks_as_specified :
  (forall types trimmedPrefix,
      upper_case_registry types ->
      ascii_registry types ->
      ascii_only trimmedPrefix ->
      prefixExists types trimmedPrefix = prefixExists_exact types trimmedPrefix
      /\ (prefixExists types trimmedPrefix = true
          <-> exists t, In t types /\ prefix t = trimmedPrefix))
  /\ (forall types trimmedName,
         ascii_registry types ->
         ascii_only trimmedName ->
         nameExists types trimmedName = true
         <-> exists t, In t types /\ same_up_to_case (name t) trimmedName)
  /\ (forall st t,
         let trimmedName := Js.trim (fst (newAssetType st)) in
         let trimmedPrefix := Js.toUpperCase (Js.trim (snd (newAssetType st))) in
         upper_case_registry (assetTypes st) ->
         ascii_registry (assetTypes st) ->
         ascii_only (fst (newAssetType st)) ->
         ascii_only (snd (newAssetType st)) ->
         In t (assetTypes st) ->
         same_up_to_case (Js.trim (snd (newAssetType st))) (prefix t) ->
         trimmedPrefix = prefix t
         /\ prefixExists_exact (assetTypes st) trimmedPrefix = true
         /\ (exists msg, handleAddAssetType st = Alert msg (Ret st))
         /\ (Js.truthy trimmedName = true ->
             (2 <= String.length trimmedPrefix <= 3)%nat ->
             handleAddAssetType st = Alert "Prefix already exists!" (Ret st)))
  /\ (forall st t,
         let trimmedName := Js.trim (fst (newAssetType st)) in
         let trimmedPrefix := Js.toUpperCase (Js.trim (snd (newAssetType st))) in
         upper_case_registry (assetTypes st) ->
         ascii_registry (assetTypes st) ->
         ascii_only (fst (newAssetType st)) ->
         ascii_only (snd (newAssetType st)) ->
         In t (assetTypes st) ->
         same_up_to_case (Js.trim (fst (newAssetType st))) (name t) ->
         (exists msg, handleAddAssetType st = Alert msg (Ret st))
         /\ (Js.truthy trimmedName = true ->
             (2 <= String.length trimmedPrefix <= 3)%nat ->
             prefixExists_exact (assetTypes st) trimmedPrefix = false ->
             handleAddAssetType st = Alert "Name already exists!" (Ret st))).
Proof.
  split; [| split; [| split]].
  - intros types P Hupper _ _.
    split; [now apply prefixExists_upper |].
    rewrite prefixExists_spec.
    split; intros (t & Hin & Ht); exists t; split; trivial;
      now rewrite (Hupper t Hin) in *.
  - intros types N _ _. rewrite nameExists_spec.
    split; intros (t & Hin & Ht); exists t; split; trivial.
    + now apply toLowerCase_same.
    + apply (same_up_to_case_strings _ _ Ht).
  - intros st t trimmedName trimmedPrefix Hupper _ _ _ Hin Hsame.
    assert (Heq : trimmedPrefix = prefix t).
    { unfold trimmedPrefix.
      rewrite (proj1 (same_up_to_case_strings _ _ Hsame)). now apply Hupper. }
    assert (Hdup : prefixExists (assetTypes st) trimmedPrefix = true).
    { apply prefixExists_spec. exists t. split; [exact Hin |].
      rewrite Heq. now apply Hupper. }
    split; [exact Heq | split; [| split]].
    + now rewrite <- (prefixExists_upper _ _ Hupper).
    + destruct (handleAddAssetType_cases st) as [Hmsg | (_ & _ & Hno & _)];
        [exact Hmsg |].
      fold trimmedPrefix in Hno. congruence.
    + intros Hn Hlen.
      rewrite (handleAddAssetType_checks st Hn Hlen).
      fold trimmedPrefix. now rewrite Hdup.
  - intros st t trimmedName trimmedPrefix Hupper _ _ _ Hin Hsame.
    assert (Hdup : nameExists (assetTypes st) trimmedName = true).
    { apply nameExists_spec. exists t. split; [exact Hin |].
      symmetry. apply (same_up_to_case_strings _ _ Hsame). }
    split.
    + destruct (handleAddAssetType_cases st) as [Hmsg | (_ & _ & _ & Hno & _)];
        [exact Hmsg |].
      fold trimmedName in Hno. congruence.
    + intros Hn Hlen Hfresh.
      rewrite <- (prefixExists_upper _ _ Hupper) in Hfresh.
      rewrite (handleAddAssetType_checks st Hn Hlen).
      fold trimmedPrefix trimmedName. now rewrite Hfresh, Hdup.
Qed.

(** On the default registry the prefix [pc] is upper-cased to the stored
    [PC] and refused. *)
Lemma duplicate_checks_as_specified_witness :
  Js.toUpperCase (Js.trim (snd (newAssetType (addForm "Tower" " pc")))) = "PC"
  /\ handleAddAssetType (addForm "Tower" " pc")
     = Alert "Prefix already exists!" (Ret (addForm "Tower" " pc")).
Proof.
  assert (Hupper : upper_case_registry (assetTypes (addForm "Tower" " pc"))).
  { intros u Hu. cbn in Hu. intuition (subst; reflexivity). }
  assert (Hascii : ascii_registry (assetTypes (addForm "Tower" " pc"))).
  { intros u Hu. cbn in Hu. intuition (subst; split; reflexivity). }
  assert (Hin : In desktop (assetTypes (addForm "Tower" " pc")))
    by (simpl; tauto).
  assert (Hsame : same_up_to_case (Js.trim (snd (newAssetType (addForm "Tower" " pc"))))
                    (prefix desktop)).
  { apply (same_char "p" "P"); [right; left; split; reflexivity |].
    apply (same_char "c" "C"); [right; left; split; reflexivity |].
    apply same_empty. }
  destruct (proj1 (proj2 (proj2 duplicate_checks_as_specified))
              (addForm "Tower" " pc") desktop Hupper Hascii
              eq_refl eq_refl Hin Hsame) as (Heq & _ & _ & Hrefused).
  split; [exact Heq |].
  apply Hrefused; [reflexivity | simpl; lia].
Defined.

(** ** Removing a type *)

Section Removing.

#[local] Open Scope list_scope.

Lemma filter_keeps_all {A : Type} (f : A -> bool) (l : list A) :
  (forall x, In x l -> f x = true) -> filter f l = l.
Proof.
  induction l as [|a l IH]; intros H; simpl; [reflexivity |].
  rewrite (H a) by now left. rewrite IH; [reflexivity |].
  intros x Hx. apply H. now right.
Qed.

Lemma findById_skip (wanted : string) (before rest : list AssetType) :
  (forall u, In u before -> id u <> wanted) ->
  findById wanted (before ++ rest) = findById wanted rest.
Proof.
  unfold findById. induction before as [|b before IH]; intros H; simpl.
  - reflexivity.
  - destruct (String.eqb_spec (id b) wanted) as [Heq | _].
    + exfalso. exact (H b (or_introl eq_refl) Heq).
    + apply IH. intros u Hu. apply H. now right.
Qed.

(** The types that stay when [idToRemove] names one entry only. *)
Lemma filter_removes_the_one (idToRemove : string) (before after : list AssetType)
    (t : AssetType) :
  id t = idToRemove ->
  (forall u, In u (before ++ after) -> id u <> idToRemove) ->
  filter (fun type => negb (String.eqb (id type) idToRemove)) (before ++ t :: after)
  = before ++ after.
Proof.
  intros Ht Hothers.
  assert (Hkeep : forall u, In u (before ++ after) ->
                    negb (String.eqb (id u) idToRemove) = true).
  { intros u Hu. apply negb_true_iff, String.eqb_neq. now apply Hothers. }
  rewrite filter_app. simpl. rewrite Ht, String.eqb_refl. simpl.
  rewrite !filter_keeps_all; [reflexivity | |];
    intros u Hu; apply Hkeep, in_or_app; tauto.
Qed.

End Removing.

(** C8 fails on the code: a removal that is not refused does not take out
    exactly the entry it was asked for. The handler filters the registry by
    id, and the add handler lets two entries share an id. From the fresh
    page the user adds the types [Dock A] and [Dock  A], which both get the
    id [dock-a]; the remove button of the first one then takes both out,
    without any message. The counters are left alone, as the claim says. *)
Theorem remove_takes_more_than_the_entry :
  let before :=
    fst (run (frozen june2024) (session addTwoAlike initialState) world0) in
  let after :=
    run (frozen june2024)
        (session (List.app addTwoAlike [RemoveCard 6]) initialState) world0 in
  map name (assetTypes before)
  = ["Laptop"; "Desktop PC"; "Keyboard"; "Mouse"; "Printer"; "Storage Device";
     "Dock A"; "Dock  A"]
  /\ map id (assetTypes before)
     = ["laptop"; "desktop"; "keyboard"; "mouse"; "printer"; "storage";
        "dock-a"; "dock-a"]
  /\ option_map name (nth_error (assetTypes before) 6) = Some "Dock A"
  /\ after = run (frozen june2024) (handleRemoveAssetType "dock-a" before) world0
  /\ map name (assetTypes (fst after))
     = ["Laptop"; "Desktop PC"; "Keyboard"; "Mouse"; "Printer"; "Storage Device"]
  /\ List.length (assetTypes (fst after)) = (List.length (assetTypes before) - 2)%nat
  /\ alerts (snd after) = []
  /\ lastGeneratedCounters (fst after) = lastGeneratedCounters before.
Proof. repeat split. Qed.

(** ** Sessions *)

Section Sessions.

Variable clk : nat -> Date.

Lemma counters_le_refl (m : JsMap) : counters_le m m.
Proof. intros k v H. exists v. split; [exact H | lia]. Qed.

Lemma counters_le_trans (m1 m2 m3 : JsMap) :
  counters_le m1 m2 -> counters_le m2 m3 -> counters_le m1 m3.
Proof.
  intros H12 H23 k v H1.
  destruct (H12 k v H1) as (v2 & H2 & Hle2).
  destruct (H23 k v2 H2) as (v3 & H3 & Hle3).
  exists v3. split; [exact H3 | lia].
Qed.

(** One click on Generate: the counters stay a map and no value drops. *)
Lemma handleGenerate_counters_grow (st : AppState) (w : World) :
  Map_wf (lastGeneratedCounters st) ->
  wall_clock (clk (clockReads w)) ->
  Map_wf (lastGeneratedCounters (fst (run clk (handleGenerate st) w)))
  /\ counters_le (lastGeneratedCounters st)
                 (lastGeneratedCounters (fst (run clk (handleGenerate st) w))).
Proof.
  intros Hwf Hclock.
  destruct (findById (selectedType st) (assetTypes st)) as [asset|] eqn:Hfind.
  2:{ unfold handleGenerate. rewrite Hfind. simpl.
      split; [exact Hwf | apply counters_le_refl]. }
  set (now := clk (clockReads w)) in *.
  destruct (Z.le_gt_cases
              (lastUsedNumberOf asset (lastGeneratedCounters st) now + 1)
              (rangeEnd asset)) as [Hle | Hgt].
  - rewrite (run_handleGenerate_next clk st asset w Hfind Hwf Hclock Hle).
    fold now.
    cbn [fst lastGeneratedCounters setGeneratedNumber setLastGeneratedCounters].
    split; [now apply Map_set_wf |].
    intros k v Hget.
    destruct (string_dec (keyPrefixOf asset now) k) as [<- | Hne].
    + rewrite Map_get_set_eq. eexists. split; [reflexivity |].
      rewrite (lastUsedNumberOf_present _ _ _ _ Hget). lia.
    + rewrite Map_get_set_ne by exact Hne. exists v. split; [exact Hget | lia].
  - rewrite (run_handleGenerate_full clk st asset w Hfind Hgt).
    split; [exact Hwf | apply counters_le_refl].
Qed.

Lemma handleAddAssetType_counters (st : AppState) (w : World) :
  lastGeneratedCounters (fst (run clk (handleAddAssetType st) w))
  = lastGeneratedCounters st.
Proof.
  destruct (handleAddAssetType_cases st) as [[msg ->] | (_ & _ & _ & _ & ->)];
    reflexivity.
Qed.

Lemma handleRemoveAssetType_counters (idToRemove : string) (st : AppState) (w : World) :
  lastGeneratedCounters (fst (run clk (handleRemoveAssetType idToRemove st) w))
  = lastGeneratedCounters st.
Proof.
  unfold handleRemoveAssetType.
  destruct (match findById idToRemove (assetTypes st) with
            | Some t => isDefault t
            | None => false
            end); [reflexivity |].
  destruct (List.length (assetTypes st) <=? 1)%nat; [reflexivity |].
  destruct (String.eqb (selectedType st) idToRemove); reflexivity.
Qed.

(** Only Generate writes the counters. *)
Lemma act_counters_grow (a : Action) (st : AppState) (w : World) :
  Map_wf (lastGeneratedCounters st) ->
  wall_clock (clk (clockReads w)) ->
  Map_wf (lastGeneratedCounters (fst (run clk (act a st) w)))
  /\ counters_le (lastGeneratedCounters st)
                 (lastGeneratedCounters (fst (run clk (act a st) w))).
Proof.
  intros Hwf Hclock.
  assert (Hsame : forall st',
             lastGeneratedCounters st' = lastGeneratedCounters st ->
             Map_wf (lastGeneratedCounters st')
             /\ counters_le (lastGeneratedCounters st) (lastGeneratedCounters st')).
  { intros st' ->. split; [exact Hwf | apply counters_le_refl]. }
  destruct a as [| | value | value | | n | n |]; simpl.
  - now apply Hsame.
  - destruct (showAddForm st); now apply Hsame.
  - destruct (showAddForm st); now apply Hsame.
  - destruct (showAddForm st); now apply Hsame.
  - destruct (showAddForm st); apply Hsame;
      [apply handleAddAssetType_counters | reflexivity].
  - destruct (nth_error (assetTypes st) n); now apply Hsame.
  - destruct (nth_error (assetTypes st) n) as [type|]; [| now apply Hsame].
    destruct (isDefault type); apply Hsame;
      [reflexivity | apply handleRemoveAssetType_counters].
  - destruct (Js.truthy (selectedType st)); [| now apply Hsame].
    now apply handleGenerate_counters_grow.
Qed.

Hypothesis clock_ok : forall i, wall_clock (clk i).

Lemma session_counters_grow (actions : list Action) :
  forall (st : AppState) (w : World),
    Map_wf (lastGeneratedCounters st) ->
    Map_wf (lastGeneratedCounters (fst (run clk (session actions st) w)))
    /\ counters_le (lastGeneratedCounters st)
                   (lastGeneratedCounters (fst (run clk (session actions st) w))).
Proof.
  induction actions as [|a actions IH]; intros st w Hwf; simpl.
  - split; [exact Hwf | apply counters_le_refl].
  - rewrite run_bind.
    destruct (act_counters_grow a st w Hwf (clock_ok _)) as [Hwf' Hle'].
    destruct (IH (fst (run clk (act a st) w)) (snd (run clk (act a st) w)) Hwf')
      as [Hwf'' Hle''].
    split; [exact Hwf'' |].
    exact (counters_le_trans _ _ _ Hle' Hle'').
Qed.

End Sessions.

(** ** Steps of the registry *)

Section RegistrySteps.

#[local] Open Scope list_scope.

Lemma upper_char_idempotent (c : ascii) :
  Js.upper_char (Js.upper_char c) = Js.upper_char c.
Proof.
  unfold Js.upper_char at 2 3.
  destruct (Js.is_lower c) eqn:Hc.
  - apply is_lower_bounds in Hc.
    unfold Js.upper_char. rewrite not_lower; [reflexivity |].
    rewrite nat_ascii_embedding; lia.
  - unfold Js.upper_char. now rewrite Hc.
Qed.

Lemma toUpperCase_idempotent (s : string) :
  Js.toUpperCase (Js.toUpperCase s) = Js.toUpperCase s.
Proof.
  unfold Js.toUpperCase. induction s as [|c s IH]; simpl; [reflexivity |].
  now rewrite upper_char_idempotent, IH.
Qed.

Variable clk : nat -> Date.

(** Generating touches the counters and the displayed number only. *)
Lemma handleGenerate_frame (st : AppState) (w : World) :
  let st' := fst (run clk (handleGenerate st) w) in
  assetTypes st' = assetTypes st
  /\ selectedType st' = selectedType st
  /\ showAddForm st' = showAddForm st
  /\ newAssetType st' = newAssetType st.
Proof.
  unfold handleGenerate.
  destruct (findById (selectedType st) (assetTypes st)) as [asset|];
    [| now repeat split].
  rewrite run_bind.
  destruct (fst (run clk (generateNextAssetNumber asset (lastGeneratedCounters st)) w));
    now repeat split.
Qed.

Lemma handleGenerate_counters_wf (st : AppState) (w : World) :
  Map_wf (lastGeneratedCounters st) ->
  Map_wf (lastGeneratedCounters (fst (run clk (handleGenerate st) w))).
Proof.
  intros Hwf. unfold handleGenerate.
  destruct (findById (selectedType st) (assetTypes st)) as [asset|];
    [| exact Hwf].
  rewrite run_bind.
  destruct (fst (run clk (generateNextAssetNumber asset (lastGeneratedCounters st)) w));
    [| exact Hwf].
  cbn [run fst lastGeneratedCounters setGeneratedNumber setLastGeneratedCounters].
  apply Map_set_wf, Map_new_wf.
Qed.

Lemma handleAddAssetType_step (st : AppState) (w : World) :
  registry_step (assetTypes st) (assetTypes (fst (run clk (handleAddAssetType st) w))).
Proof.
  destruct (handleAddAssetType_cases st)
    as [[msg ->] | (Hn & Hlen & Hp & Hne & ->)].
  - apply step_same.
  - cbn [run fst assetTypes setShowAddForm setNewAssetType setAssetTypes].
    apply step_added; try assumption.
    apply toUpperCase_idempotent.
Qed.

Lemma handleRemoveAssetType_step (idToRemove : string) (st : AppState) (w : World) :
  registry_step (assetTypes st)
    (assetTypes (fst (run clk (handleRemoveAssetType idToRemove st) w))).
Proof.
  unfold handleRemoveAssetType.
  destruct (match findById idToRemove (assetTypes st) with
            | Some t => isDefault t
            | None => false
            end) eqn:Hdef; [apply step_same |].
  destruct (List.length (assetTypes st) <=? 1)%nat eqn:Hlen; [apply step_same |].
  apply Nat.leb_gt in Hlen.
  destruct (String.eqb (selectedType st) idToRemove);
    cbn [run fst assetTypes setSelectedType setAssetTypes];
    now apply step_removed.
Qed.

Lemma act_registry_step (a : Action) (st : AppState) (w : World) :
  registry_step (assetTypes st) (assetTypes (fst (run clk (act a st) w))).
Proof.
  destruct a as [| | value | value | | n | n |]; simpl.
  - apply step_same.
  - destruct (showAddForm st); apply step_same.
  - destruct (showAddForm st); apply step_same.
  - destruct (showAddForm st); apply step_same.
  - destruct (showAddForm st); [apply handleAddAssetType_step | apply step_same].
  - destruct (nth_error (assetTypes st) n); apply step_same.
  - destruct (nth_error (assetTypes st) n) as [type|]; [| apply step_same].
    destruct (isDefault type); [apply step_same | apply handleRemoveAssetType_step].
  - destruct (Js.truthy (selectedType st)); [| apply step_same].
    rewrite (proj1 (handleGenerate_frame st w)). apply step_same.
Qed.

(** A property of the registry that every step keeps holds at the end of
    every session. *)
Lemma session_registry_invariant (P : list AssetType -> Prop) :
  (forall types types', registry_step types types' -> P types -> P types') ->
  forall (actions : list Action) (st : AppState) (w : World),
    P (assetTypes st) ->
    P (assetTypes (fst (run clk (session actions st) w))).
Proof.
  intros Hstep actions.
  induction actions as [|a actions IH]; intros st w HP; simpl.
  - exact HP.
  - rewrite run_bind. apply IH.
    exact (Hstep _ _ (act_registry_step a st w) HP).
Qed.

(** The counters stay a map through every session, whatever the clock. *)
Lemma session_counters_wf (actions : list Action) :
  forall (st : AppState) (w : World),
    Map_wf (lastGeneratedCounters st) ->
    Map_wf (lastGeneratedCounters (fst (run clk (session actions st) w))).
Proof.
  induction actions as [|a actions IH]; intros st w Hwf; simpl.
  - exact Hwf.
  - rewrite run_bind. apply IH.
    destruct a as [| | value | value | | n | n |]; simpl.
    + exact Hwf.
    + destruct (showAddForm st); exact Hwf.
    + destruct (showAddForm st); exact Hwf.
    + destruct (showAddForm st); exact Hwf.
    + destruct (showAddForm st); [| exact Hwf].
      now rewrite handleAddAssetType_counters.
    + destruct (nth_error (assetTypes st) n); exact Hwf.
    + destruct (nth_error (assetTypes st) n) as [type|]; [| exact Hwf].
      destruct (isDefault type); [exact Hwf |].
      now rewrite handleRemoveAssetType_counters.
    + destruct (Js.truthy (selectedType st)); [| exact Hwf].
      now apply handleGenerate_counters_wf.
Qed.

End RegistrySteps.

(** ** Safe integers *)

Section Safety.

#[local] Open Scope list_scope.

Variable clk : nat -> Date.

Lemma maxRangeEndOf_add (types : list AssetType) (x : AssetType) :
  maxRangeEndOf (types ++ [x]) = Z.max (maxRangeEndOf types) (rangeEnd x).
Proof. unfold maxRangeEndOf. now rewrite fold_left_app. Qed.

Lemma maxRangeEndOf_filter (keep : AssetType -> bool) (types : list AssetType) :
  maxRangeEndOf (filter keep types) <= maxRangeEndOf types.
Proof.
  destruct (maxRangeEndOf_spec types) as (Hpos & Hall & _).
  destruct (maxRangeEndOf_spec (filter keep types)) as (_ & _ & [-> | (t & Hin & <-)]).
  - exact Hpos.
  - apply Hall. apply filter_In in Hin. tauto.
Qed.

(** The type an add appends is safe while the highest range end leaves
    room for a thousand numbers. *)
Lemma newTypeToAdd_safe (types : list AssetType) (N P : string) :
  maxRangeEndOf types + 1000 < 2 ^ 53 -> safe_type (newTypeToAdd types N P).
Proof.
  intros Hroom. destruct (maxRangeEndOf_spec types) as (Hpos & _).
  unfold safe_type, safe_integer. cbn [rangeStart rangeEnd newTypeToAdd]. lia.
Qed.

Lemma step_keeps_safe (types types' : list AssetType) :
  registry_step types types' ->
  safe_registry types ->
  maxRangeEndOf types + 1000 < 2 ^ 53 ->
  safe_registry types'
  /\ maxRangeEndOf types' <= maxRangeEndOf types + 1000.
Proof.
  intros [| N P _ _ _ _ _ | x _ _] Hsafe Hroom.
  - split; [exact Hsafe | lia].
  - split.
    + intros t Ht. apply in_app_or in Ht. destruct Ht as [Ht | [<- | []]].
      * now apply Hsafe.
      * now apply newTypeToAdd_safe.
    + rewrite maxRangeEndOf_add. cbn [rangeEnd newTypeToAdd]. lia.
  - split.
    + intros t Ht. apply filter_In in Ht. apply Hsafe. tauto.
    + pose proof (maxRangeEndOf_filter
                    (fun type => negb (String.eqb (id type) x)) types). lia.
Qed.

(** The number the generator hands out is safe, and so is the sum that
    makes it. *)
Lemma next_number_safe (asset : AssetType) (counters : JsMap) (now : Date) :
  safe_type asset -> safe_counters counters ->
  lastUsedNumberOf asset counters now + 1 <= rangeEnd asset ->
  - 2 ^ 53 <= lastUsedNumberOf asset counters now
  /\ safe_integer (lastUsedNumberOf asset counters now + 1).
Proof.
  intros [Hstart Hend] Hcnt. unfold lastUsedNumberOf, safe_integer in *.
  destruct (Map_get (keyPrefixOf asset now) counters) as [v|] eqn:Hget; intros Hle.
  - pose proof (Hcnt _ _ Hget) as Hv. unfold safe_integer in Hv. lia.
  - lia.
Qed.

Lemma handleGenerate_keeps_safe (st : AppState) (w : World) :
  Map_wf (lastGeneratedCounters st) ->
  wall_clock (clk (clockReads w)) ->
  safe_registry (assetTypes st) ->
  safe_counters (lastGeneratedCounters st) ->
  safe_counters (lastGeneratedCounters (fst (run clk (handleGenerate st) w))).
Proof.
  intros Hwf Hclock Hreg Hcnt.
  destruct (findById (selectedType st) (assetTypes st)) as [asset|] eqn:Hfind.
  2:{ unfold handleGenerate. rewrite Hfind. exact Hcnt. }
  assert (Hasset : safe_type asset).
  { apply Hreg. unfold findById in Hfind. apply find_some in Hfind. tauto. }
  set (now := clk (clockReads w)) in *.
  destruct (Z.le_gt_cases
              (lastUsedNumberOf asset (lastGeneratedCounters st) now + 1)
              (rangeEnd asset)) as [Hle | Hgt].
  - rewrite (run_handleGenerate_next clk st asset w Hfind Hwf Hclock Hle).
    fold now.
    cbn [fst lastGeneratedCounters setGeneratedNumber setLastGeneratedCounters].
    intros k v Hget.
    destruct (string_dec (keyPrefixOf asset now) k) as [<- | Hne].
    + rewrite Map_get_set_eq in Hget. injection Hget as <-.
      now apply next_number_safe.
    + rewrite Map_get_set_ne in Hget by exact Hne. exact (Hcnt k v Hget).
  - rewrite (run_handleGenerate_full clk st asset w Hfind Hgt). exact Hcnt.
Qed.

(** One action uses up one unit of the room a safe state has. *)
Lemma act_keeps_safe (a : Action) (st : AppState) (w : World) (n : nat) :
  Map_wf (lastGeneratedCounters st) ->
  wall_clock (clk (clockReads w)) ->
  safe_state (S n) st ->
  safe_state n (fst (run clk (act a st) w))
  /\ maxRangeEndOf (assetTypes (fst (run clk (act a st) w)))
     <= maxRangeEndOf (assetTypes st) + 1000.
Proof.
  intros Hwf Hclock (Hreg & Hcnt & Hroom).
  destruct (step_keeps_safe _ _ (act_registry_step clk a st w) Hreg)
    as [Hreg' Hmax]; [lia |].
  split; [| exact Hmax].
  split; [exact Hreg' | split; [| lia]].
  assert (Hsame : forall st',
             lastGeneratedCounters st' = lastGeneratedCounters st ->
             safe_counters (lastGeneratedCounters st'))
    by (intros st' ->; exact Hcnt).
  destruct a as [| | value | value | | i | i |]; simpl.
  - now apply Hsame.
  - destruct (showAddForm st); now apply Hsame.
  - destruct (showAddForm st); now apply Hsame.
  - destruct (showAddForm st); now apply Hsame.
  - destruct (showAddForm st); apply Hsame;
      [apply handleAddAssetType_counters | reflexivity].
  - destruct (nth_error (assetTypes st) i); now apply Hsame.
  - destruct (nth_error (assetTypes st) i) as [type|]; [| now apply Hsame].
    destruct (isDefault type); apply Hsame;
      [reflexivity | apply handleRemoveAssetType_counters].
  - destruct (Js.truthy (selectedType st)); [| now apply Hsame].
    now apply handleGenerate_keeps_safe.
Qed.

(** A registry of safe ranges with room for every add of the session
    ends as a registry of safe ranges. *)
Lemma session_keeps_safe_registry (actions : list Action) :
  forall (st : AppState) (w : World),
    safe_registry (assetTypes st) ->
    maxRangeEndOf (assetTypes st) + 1000 * Z.of_nat (List.length actions) < 2 ^ 53 ->
    safe_registry (assetTypes (fst (run clk (session actions st) w)))
    /\ maxRangeEndOf (assetTypes (fst (run clk (session actions st) w)))
       <= maxRangeEndOf (assetTypes st) + 1000 * Z.of_nat (List.length actions).
Proof.
  induction actions as [|a actions IH]; intros st w Hsafe Hroom.
  - simpl. split; [exact Hsafe | lia].
  - cbn [session]. rewrite run_bind. cbn [List.length] in Hroom.
    destruct (step_keeps_safe _ _ (act_registry_step clk a st w) Hsafe)
      as [Hsafe' Hmax']; [lia |].
    destruct (IH (fst (run clk (act a st) w)) (snd (run clk (act a st) w)) Hsafe')
      as [Hend Hmax]; [lia |].
    split; [exact Hend |]. cbn [List.length]. lia.
Qed.

Hypothesis clock_ok : forall i, wall_clock (clk i).

(** A safe state with room for the whole session ends in a safe state. *)
Lemma session_keeps_safe (actions : list Action) :
  forall (st : AppState) (w : World),
    Map_wf (lastGeneratedCounters st) ->
    safe_state (List.length actions) st ->
    safe_state 0 (fst (run clk (session actions st) w))
    /\ maxRangeEndOf (assetTypes (fst (run clk (session actions st) w)))
       <= maxRangeEndOf (assetTypes st) + 1000 * Z.of_nat (List.length actions).
Proof.
  induction actions as [|a actions IH]; intros st w Hwf Hsafe.
  - simpl. split; [exact Hsafe | lia].
  - cbn [session]. rewrite run_bind.
    destruct (act_keeps_safe a st w (List.length actions) Hwf (clock_ok _) Hsafe)
      as [Hsafe' Hmax'].
    destruct (IH (fst (run clk (act a st) w)) (snd (run clk (act a st) w)))
      as [Hend Hmax]; [| exact Hsafe' |].
    + exact (proj1 (act_counters_grow clk a st w Hwf (clock_ok _))).
    + split; [exact Hend |]. cbn [List.length]. lia.
Qed.

End Safety.

(** C6. On safe integers, a successful [handleGenerate] sets the key of the
    current period to the successor of its previous value (of
    [rangeStart - 1] when the key was absent), a safe integer again, and
    leaves every other key alone; [n] clicks in one period, while [n]
    numbers are left, display the [n] successors of the last used number in
    order, each of them safe; and nothing the user does in a session that
    starts from a safe state with room for it, generating, adding or
    removing types, ever lowers the value of a key or drops a key, and the
    values stay safe. None of this needs [rangeStart <= rangeEnd]. *)
Theorem counters_only_grow :
  (forall (clk : nat -> Date) (st : AppState) (asset : AssetType) (w : World)
          (r : Generated),
      let now := clk (clockReads w) in
      let st' := fst (run clk (handleGenerate st) w) in
      let lastUsed :=
        match Map_get (keyPrefixOf asset now) (lastGeneratedCounters st) with
        | Some n => n
        | None => rangeStart asset - 1
        end in
      findById (selectedType st) (assetTypes st) = Some asset ->
      Map_wf (lastGeneratedCounters st) ->
      wall_clock now ->
      safe_type asset ->
      safe_counters (lastGeneratedCounters st) ->
      fst (run clk (generateNextAssetNumber asset (lastGeneratedCounters st)) w)
      = Some r ->
      nextCounterValue r = lastUsed + 1
      /\ lastUsed < nextCounterValue r
      /\ safe_integer (nextCounterValue r)
      /\ generatedNumber st' = keyPrefixOf asset now ++ formatNum (nextCounterValue r)
      /\ lastGeneratedCounters st'
         = Map_set (keyPrefixOf asset now) (nextCounterValue r)
                   (lastGeneratedCounters st)
      /\ Map_get (keyPrefixOf asset now) (lastGeneratedCounters st')
         = Some (nextCounterValue r)
      /\ forall k, k <> keyPrefixOf asset now ->
           Map_get k (lastGeneratedCounters st')
           = Map_get k (lastGeneratedCounters st))
  /\ (forall (clk : nat -> Date) (asset : AssetType) (now : Date) (n : nat)
             (st : AppState) (w : World),
         let lastUsed := lastUsedNumberOf asset (lastGeneratedCounters st) now in
         let final := snd (fst (run clk (generateMany n st) w)) in
         (forall i, wall_clock (clk i) /\ same_period (clk i) now) ->
         findById (selectedType st) (assetTypes st) = Some asset ->
         Map_wf (lastGeneratedCounters st) ->
         safe_type asset ->
         safe_counters (lastGeneratedCounters st) ->
         lastUsed + Z.of_nat n <= rangeEnd asset ->
         fst (fst (run clk (generateMany n st) w))
         = map (fun i => keyPrefixOf asset now ++ formatNum (lastUsed + Z.of_nat i))
               (seq 1 n)
         /\ (forall i, (1 <= i <= n)%nat -> safe_integer (lastUsed + Z.of_nat i))
         /\ lastUsedNumberOf asset (lastGeneratedCounters final) now
            = lastUsed + Z.of_nat n
         /\ forall k, k <> keyPrefixOf asset now ->
              Map_get k (lastGeneratedCounters final)
              = Map_get k (lastGeneratedCounters st))
  /\ (forall (clk : nat -> Date) (actions : list Action) (st : AppState) (w : World)
             (k : string) (v : Z),
         (forall i, wall_clock (clk i)) ->
         Map_wf (lastGeneratedCounters st) ->
         safe_state (List.length actions) st ->
         Map_get k (lastGeneratedCounters st) = Some v ->
         exists v',
           Map_get k (lastGeneratedCounters (fst (run clk (session actions st) w)))
           = Some v'
           /\ v <= v'
           /\ safe_integer v').
Proof.
  split; [| split].
  - intros clk st asset w r now st' lastUsed Hfind Hwf Hclock Hasset Hcnt Hres.
    apply run_generate_Some in Hres. fold now in Hres.
    destruct Hres as [Hle ->].
    unfold st'. rewrite (run_handleGenerate_next clk st asset w Hfind Hwf Hclock Hle).
    fold now. cbn [fst nextCounterValue generatedNumber lastGeneratedCounters
                   setGeneratedNumber setLastGeneratedCounters].
    pose proof (proj2 (next_number_safe asset _ now Hasset Hcnt Hle)) as Hsafe.
    fold (lastUsedNumberOf asset (lastGeneratedCounters st) now) in lastUsed.
    fold lastUsed. fold lastUsed in Hsafe.
    split; [reflexivity | split; [lia | split; [exact Hsafe |]]].
    split; [reflexivity | split; [reflexivity |]].
    split; [apply Map_get_set_eq |].
    intros k Hk. apply Map_get_set_ne. congruence.
  - intros clk asset now n st w lastUsed final Hclk Hfind Hwf Hasset Hcnt Hroom.
    destruct (run_generateMany clk asset now Hclk n st w Hfind Hwf Hroom)
      as (Hnums & Hlast & Hother).
    split; [exact Hnums | split; [| split; [exact Hlast | exact Hother]]].
    intros i Hi.
    assert (Hone : lastUsedNumberOf asset (lastGeneratedCounters st) now + 1
                   <= rangeEnd asset) by (fold lastUsed; lia).
    destruct (next_number_safe asset _ now Hasset Hcnt Hone) as [Hlow _].
    fold lastUsed in Hlow. destruct Hasset as [_ Hend].
    unfold safe_integer in *. lia.
  - intros clk actions st w k v Hclk Hwf Hsafe Hget.
    destruct (proj2 (session_counters_grow clk Hclk actions st w Hwf) k v Hget)
      as (v' & Hget' & Hle).
    exists v'. split; [exact Hget' | split; [exact Hle |]].
    destruct (session_keeps_safe clk Hclk actions st w Hwf Hsafe)
      as [(_ & Hcnt & _) _].
    exact (Hcnt k v' Hget').
Qed.

(** Three clicks on the laptop type in June 2024, starting from no counters. *)
Lemma counters_only_grow_witness :
  fst (fst (run (frozen june2024) (generateMany 3 initialState) world0))
  = ["LT24060001"; "LT24060002"; "LT24060003"].
Proof.
  destruct (proj1 (proj2 counters_only_grow) (frozen june2024) laptop june2024
              3%nat initialState world0) as (Hnums & _).
  - intros i. split; [unfold wall_clock; simpl; lia | split; reflexivity].
  - reflexivity.
  - constructor.
  - repeat split; reflexivity.
  - intros k v Hget. discriminate Hget.
  - simpl; lia.
  - rewrite Hnums. reflexivity.
Defined.

(** ** Saving and loading the registry *)

Section RegistryPersistence.

#[local] Open Scope list_scope.

Lemma withIcon_restored (s : StoredType) : icon_restored (withIcon s).
Proof. reflexivity. Qed.

Lemma withoutIcon_withIcon (s : StoredType) : withoutIcon (withIcon s) = s.
Proof. now destruct s. Qed.

Lemma withIcon_withoutIcon (t : AssetType) :
  icon_restored t -> withIcon (withoutIcon t) = t.
Proof.
  destruct t as [i n p ic ii rs re d]. unfold icon_restored. simpl.
  intros ->. reflexivity.
Qed.

Lemma load_save_restored (types : list AssetType) :
  Forall icon_restored types ->
  loadAssetTypes (Some (saveAssetTypes types)) = types.
Proof.
  unfold loadAssetTypes, saveAssetTypes. rewrite map_map.
  induction 1 as [|t types Ht _ IH]; simpl; [reflexivity |].
  now rewrite withIcon_withoutIcon, IH.
Qed.

Lemma loadAssetTypes_restored (stored : option (list StoredType)) :
  Forall icon_restored (loadAssetTypes stored).
Proof.
  destruct stored as [parsed|]; simpl.
  - induction parsed; simpl; constructor; [apply withIcon_restored | assumption].
  - repeat constructor.
Qed.

(** The component of a key of [iconMap]. *)
Lemma known_icon_component (key : string) :
  known_icon key -> iconMap key = Some (getIconComponent (Some key)).
Proof.
  unfold known_icon, getIconComponent. intros Hknown.
  destruct key as [|c r]; [exfalso; apply Hknown; reflexivity |].
  cbn [Js.truthy].
  destruct (iconMap (String c r)); [reflexivity | now contradiction Hknown].
Qed.

Lemma step_keeps_known_icons (types types' : list AssetType) :
  registry_step types types' ->
  Forall (fun t => known_icon (iconId t)) types ->
  Forall (fun t => known_icon (iconId t)) types'.
Proof.
  intros [| N P _ _ _ _ _ | x _ _] H.
  - exact H.
  - apply Forall_app. split; [exact H |].
    constructor; [| constructor]. cbn [iconId newTypeToAdd]. discriminate.
  - apply Forall_forall. intros t Ht. apply filter_In in Ht.
    exact (proj1 (Forall_forall _ _) H t (proj1 Ht)).
Qed.

Lemma step_keeps_icons (types types' : list AssetType) :
  registry_step types types' ->
  Forall icon_restored types -> Forall icon_restored types'.
Proof.
  intros [| N P _ _ _ _ _ | x _ _] H.
  - exact H.
  - apply Forall_app. split; [exact H |]. repeat constructor.
  - apply Forall_forall. intros t Ht. apply filter_In in Ht.
    exact (proj1 (Forall_forall _ _) H t (proj1 Ht)).
Qed.

End RegistryPersistence.

(** X1. What [loadAssetTypes] makes of what the save effect wrote, when
    every [iconId] is a key of [iconMap]: as many types, in the same order,
    with every stored field as it was and with the component that
    [iconMap] has under the [iconId]. It is the registry that was saved as
    soon as the icons of that registry were the ones of their ids. *)
Theorem registry_round_trip (types : list AssetType) :
  (forall t, In t types -> known_icon (iconId t)) ->
  let loaded := loadAssetTypes (Some (saveAssetTypes types)) in
  map withoutIcon loaded = map withoutIcon types
  /\ (forall n t, nth_error types n = Some t ->
        exists t', nth_error loaded n = Some t'
          /\ iconMap (iconId t) = Some (icon t'))
  /\ (Forall icon_restored types -> loaded = types).
Proof.
  intros Hknown loaded. unfold loaded, loadAssetTypes, saveAssetTypes.
  split; [| split].
  - rewrite !map_map. apply map_ext. intros t. now rewrite withoutIcon_withIcon.
  - intros n t Hn. rewrite map_map.
    exists (withIcon (withoutIcon t)). split.
    + exact (map_nth_error (fun x => withIcon (withoutIcon x)) n types Hn).
    + cbn [icon withIcon withoutIcon stored_iconId].
      apply known_icon_component, Hknown. exact (nth_error_In _ _ Hn).
  - apply load_save_restored.
Qed.

(** The six default types come back as they are. *)
Lemma registry_round_trip_witness :
  loadAssetTypes (Some (saveAssetTypes defaultAssetTypes)) = defaultAssetTypes.
Proof.
  assert (Hknown : forall t, In t defaultAssetTypes -> known_icon (iconId t)).
  { intros t Ht. unfold defaultAssetTypes in Ht. simpl in Ht.
    intuition (subst; unfold known_icon; simpl; discriminate). }
  destruct (registry_round_trip defaultAssetTypes Hknown) as (_ & _ & Hsame).
  apply Hsame. repeat constructor.
Defined.

(** X2. When the icon ids in storage are keys of [iconMap], whatever else
    is in storage when the page opens and whatever the user then does,
    every type of the registry has the component of its icon id, and
    opening the page again on what the save effects wrote gives the same
    registry and the same counters; the selection goes back to the first
    type, the form is closed and empty and no number is displayed. *)
Theorem reload_restores_the_session (clk : nat -> Date) (storage : Storage)
    (actions : list Action) (w : World) :
  (forall type,
      In type (match assetTypesState_v1 storage with
               | Some parsedTypes => parsedTypes
               | None => []
               end) ->
      known_icon (stored_iconId type)) ->
  let st := fst (run clk (session actions (App_mount storage)) w) in
  let reloaded := App_mount (persisted st) in
  (forall t, In t (assetTypes st) -> iconMap (iconId t) = Some (icon t))
  /\ assetTypes reloaded = assetTypes st
  /\ lastGeneratedCounters reloaded = lastGeneratedCounters st
  /\ selectedType reloaded
     = match assetTypes st with t :: _ => id t | [] => "" end
  /\ showAddForm reloaded = false
  /\ newAssetType reloaded = ("", "")
  /\ generatedNumber reloaded = "".
Proof.
  intros Hstored st reloaded.
  assert (Hicons : Forall icon_restored (assetTypes st)).
  { apply (session_registry_invariant clk _ step_keeps_icons).
    apply loadAssetTypes_restored. }
  assert (Hknown : Forall (fun t => known_icon (iconId t)) (assetTypes st)).
  { apply (session_registry_invariant clk _ step_keeps_known_icons).
    cbn [App_mount assetTypes]. unfold loadAssetTypes.
    destruct (assetTypesState_v1 storage) as [parsed|].
    - apply Forall_forall. intros t Ht. apply in_map_iff in Ht.
      destruct Ht as (type & <- & Hin). now apply Hstored.
    - repeat constructor; discriminate. }
  assert (Hwf : Map_wf (lastGeneratedCounters st)).
  { apply session_counters_wf. simpl.
    destruct (assetCountersState_v1 storage); apply Map_new_wf. }
  assert (Htypes : assetTypes reloaded = assetTypes st)
    by exact (load_save_restored _ Hicons).
  split; [| split; [exact Htypes | split; [| split; [| now repeat split]]]].
  - intros t Ht.
    rewrite (proj1 (Forall_forall _ _) Hicons t Ht).
    apply known_icon_component.
    exact (proj1 (Forall_forall _ _) Hknown t Ht).
  - unfold reloaded. simpl. unfold saveCounters. now apply Map_new_entries.
  - unfold reloaded, App_mount. cbn [selectedType persisted assetTypesState_v1].
    fold (saveAssetTypes (assetTypes st)).
    change (loadAssetTypes (Some (saveAssetTypes (assetTypes st))))
      with (assetTypes reloaded).
    rewrite Htypes. destruct (assetTypes st) as [|t rest]; [reflexivity |].
    destruct (id t); reflexivity.
Qed.

(** The page opens on two stored types and a stored counter, a type is
    added and a number generated; then the page is opened again. *)
Lemma reload_restores_the_session_witness :
  map name
    (assetTypes
       (App_mount
          (persisted
             (fst (run (frozen june2024)
                     (session (List.app addDesktop [Generate])
                        (App_mount
                           (mkStorage
                              (Some [withoutIcon laptop; withoutIcon desktop])
                              (Some [("LT2406", 41)]))))
                     world0)))))
  = ["Laptop"; "Desktop PC"; "Desktop"]
  /\ lastGeneratedCounters
       (App_mount
          (persisted
             (fst (run (frozen june2024)
                     (session (List.app addDesktop [Generate])
                        (App_mount
                           (mkStorage
                              (Some [withoutIcon laptop; withoutIcon desktop])
                              (Some [("LT2406", 41)]))))
                     world0))))
     = [("LT2406", 42)].
Proof.
  destruct (reload_restores_the_session (frozen june2024)
              (mkStorage (Some [withoutIcon laptop; withoutIcon desktop])
                         (Some [("LT2406", 41)]))
              (List.app addDesktop [Generate]) world0)
    as (_ & Htypes & Hcounters & _).
  - intros type Hin. simpl in Hin.
    intuition (subst; unfold known_icon; simpl; discriminate).
  - split; [rewrite Htypes | rewrite Hcounters]; reflexivity.
Defined.

(** ** What every session keeps of the registry *)

Section RegistryInvariants.

#[local] Open Scope list_scope.

Lemma customs_are_defaults_first (l : list AssetType) :
  forallb (fun u => negb (isDefault u)) l = true -> defaults_first l = true.
Proof.
  induction l as [|t l IH]; simpl; [reflexivity |].
  intros H. apply andb_true_iff in H. destruct H as [Ht Hl].
  apply negb_true_iff in Ht. now rewrite Ht.
Qed.

Lemma defaults_first_filter (f : AssetType -> bool) (l : list AssetType) :
  defaults_first l = true -> defaults_first (filter f l) = true.
Proof.
  induction l as [|t l IH]; simpl; [reflexivity |].
  destruct (isDefault t) eqn:Ht; intros H.
  - destruct (f t); simpl; [rewrite Ht |]; now apply IH.
  - assert (Hall : forallb (fun u => negb (isDefault u)) (filter f l) = true).
    { apply forallb_forall. intros u Hu. apply filter_In in Hu.
      exact (proj1 (forallb_forall _ _) H u (proj1 Hu)). }
    destruct (f t); simpl; [now rewrite Ht | now apply customs_are_defaults_first].
Qed.

Lemma defaults_first_add (l : list AssetType) (c : AssetType) :
  isDefault c = false -> defaults_first l = true -> defaults_first (l ++ [c]) = true.
Proof.
  intros Hc. induction l as [|t l IH]; simpl.
  - now rewrite Hc.
  - destruct (isDefault t); [exact IH |].
    intros H. rewrite forallb_app, H. simpl. now rewrite Hc.
Qed.

(** With the default types in front, an id that a default type bears is
    found on a default type. *)
Lemma defaults_first_find (l : list AssetType) (u : AssetType) :
  defaults_first l = true -> In u l -> isDefault u = true ->
  exists t, findById (id u) l = Some t /\ isDefault t = true.
Proof.
  unfold findById. induction l as [|t l IH]; simpl; intros Hfirst Hin Hu.
  - contradiction.
  - destruct (isDefault t) eqn:Ht.
    + destruct (String.eqb_spec (id t) (id u)) as [_ | Hne]; [now exists t |].
      destruct Hin as [-> | Hin]; [now contradiction Hne | now apply IH].
    + destruct Hin as [-> | Hin]; [congruence |].
      pose proof (proj1 (forallb_forall _ _) Hfirst u Hin) as Hc.
      simpl in Hc. rewrite Hu in Hc. discriminate Hc.
Qed.

(** The filter of a removal that was not refused keeps every default type. *)
Lemma removal_keeps_defaults (idToRemove : string) (l : list AssetType) :
  defaults_first l = true ->
  match findById idToRemove l with
  | Some t => isDefault t
  | None => false
  end = false ->
  forall u, In u l -> isDefault u = true ->
    negb (String.eqb (id u) idToRemove) = true.
Proof.
  intros Hfirst Hguard u Hin Hu.
  apply negb_true_iff, String.eqb_neq. intros Heq.
  destruct (defaults_first_find l u Hfirst Hin Hu) as (t & Hfind & Ht).
  rewrite Heq in Hfind. rewrite Hfind, Ht in Hguard. discriminate Hguard.
Qed.

Lemma filter_filter_defaults (keep : AssetType -> bool) (l : list AssetType) :
  (forall u, In u l -> isDefault u = true -> keep u = true) ->
  filter isDefault (filter keep l) = filter isDefault l.
Proof.
  induction l as [|t l IH]; intros H; simpl; [reflexivity |].
  assert (IH' := IH (fun u Hu => H u (or_intror Hu))).
  destruct (isDefault t) eqn:Ht.
  - rewrite (H t (or_introl eq_refl) Ht). simpl. now rewrite Ht, IH'.
  - destruct (keep t); simpl; [now rewrite Ht |]; exact IH'.
Qed.

Lemma step_keeps_defaults (types types' : list AssetType) :
  registry_step types types' ->
  defaults_first types = true ->
  defaults_first types' = true
  /\ filter isDefault types' = filter isDefault types.
Proof.
  intros [| N P _ _ _ _ _ | x Hguard _] Hfirst.
  - now split.
  - split; [now apply defaults_first_add |].
    rewrite filter_app. simpl. apply app_nil_r.
  - split; [now apply defaults_first_filter |].
    apply filter_filter_defaults. now apply removal_keeps_defaults.
Qed.

Lemma NoDup_add_last {A : Type} (l : list A) (x : A) :
  NoDup l -> ~ In x l -> NoDup (l ++ [x]).
Proof.
  intros Hl Hx. apply NoDup_app; [exact Hl | repeat constructor; intros [] |].
  intros y Hy [<- | []]. contradiction.
Qed.

Lemma filter_keeps_distinct (key : AssetType -> string) (keep : AssetType -> bool)
    (types : list AssetType) :
  NoDup (map key types) -> NoDup (map key (filter keep types)).
Proof.
  induction types as [|t types IH]; simpl; intros Hnd; [constructor |].
  apply NoDup_cons_iff in Hnd. destruct Hnd as [Hfresh Hrest].
  destruct (keep t); simpl; [| now apply IH].
  constructor; [| now apply IH].
  intros Hin. apply Hfresh. apply in_map_iff in Hin.
  destruct Hin as (u & Hu & Hin). apply filter_In in Hin.
  apply in_map_iff. exists u. tauto.
Qed.

Lemma prefixExists_false (types : list AssetType) (P : string) :
  prefixExists types P = false ->
  ~ In P (map (fun t => Js.toUpperCase (prefix t)) types).
Proof.
  intros Hno Hin. apply in_map_iff in Hin. destruct Hin as (t & Ht & Hin).
  assert (Hyes : prefixExists types P = true).
  { apply existsb_exists. exists t. split; [exact Hin | now apply String.eqb_eq]. }
  congruence.
Qed.

Lemma nameExists_false (types : list AssetType) (N : string) :
  nameExists types N = false ->
  ~ In (Js.toLowerCase N) (map (fun t => Js.toLowerCase (name t)) types).
Proof.
  intros Hno Hin. apply in_map_iff in Hin. destruct Hin as (t & Ht & Hin).
  assert (Hyes : nameExists types N = true).
  { apply existsb_exists. exists t. split; [exact Hin | now apply String.eqb_eq]. }
  congruence.
Qed.

Lemma step_keeps_tidy (types types' : list AssetType) :
  registry_step types types' -> tidy_registry types -> tidy_registry types'.
Proof.
  intros [| N P _ Hlen Hup Hp Hn | x _ _] (Hprefixes & Hnames & Hshape).
  - now repeat split.
  - unfold tidy_registry. rewrite !map_app. simpl. rewrite Hup.
    split; [| split].
    + apply NoDup_add_last; [exact Hprefixes | now apply prefixExists_false].
    + apply NoDup_add_last; [exact Hnames | now apply nameExists_false].
    + apply Forall_app. split; [exact Hshape |].
      constructor; [split; [exact Hup | exact Hlen] | constructor].
  - split; [| split].
    + now apply filter_keeps_distinct.
    + now apply filter_keeps_distinct.
    + apply Forall_forall. intros t Ht. apply filter_In in Ht.
      exact (proj1 (Forall_forall _ _) Hshape t (proj1 Ht)).
Qed.

Lemma tidy_prefixes_distinct (types : list AssetType) :
  tidy_registry types -> NoDup (map prefix types).
Proof.
  intros (Hprefixes & _ & Hshape).
  replace (map prefix types)
    with (map (fun t => Js.toUpperCase (prefix t)) types); [exact Hprefixes |].
  apply map_ext_in. intros t Ht.
  exact (proj1 (proj1 (Forall_forall _ _) Hshape t Ht)).
Qed.

Lemma ascending_add_last (l : list AssetType) (x : AssetType) :
  ascending_ranges l ->
  (forall u, In u l -> rangeEnd u < rangeStart x) ->
  rangeStart x <= rangeEnd x ->
  ascending_ranges (l ++ [x]).
Proof.
  intros Hl Hbelow Hx. induction Hl as [| t rest Ht Hrest _ IH]; simpl.
  - constructor; [exact Hx | constructor | constructor].
  - constructor; [exact Ht | |].
    + apply Forall_app. split; [exact Hrest |].
      repeat constructor. apply Hbelow. now left.
    + apply IH. intros u Hu. apply Hbelow. now right.
Qed.

Lemma ascending_filter (f : AssetType -> bool) (l : list AssetType) :
  ascending_ranges l -> ascending_ranges (filter f l).
Proof.
  induction 1 as [| t rest Ht Hrest _ IH]; simpl; [constructor |].
  destruct (f t); [| exact IH].
  constructor; [exact Ht | | exact IH].
  apply Forall_forall. intros u Hu. apply filter_In in Hu.
  exact (proj1 (Forall_forall _ _) Hrest u (proj1 Hu)).
Qed.

Lemma step_keeps_ascending (types types' : list AssetType) :
  registry_step types types' -> ascending_ranges types -> ascending_ranges types'.
Proof.
  intros [| N P _ _ _ _ _ | x _ _] H.
  - exact H.
  - destruct (maxRangeEndOf_spec types) as (_ & Hall & _).
    apply ascending_add_last; [exact H | | simpl; lia].
    intros u Hu. specialize (Hall u Hu). simpl. lia.
  - now apply ascending_filter.
Qed.

(** In ascending ranges an earlier type ends before a later one begins. *)
Lemma ascending_nth (l : list AssetType) :
  ascending_ranges l ->
  forall i j a b, (i < j)%nat ->
    nth_error l i = Some a -> nth_error l j = Some b ->
    rangeEnd a < rangeStart b.
Proof.
  induction 1 as [| t rest Ht Hrest _ IH]; intros i j a b Hij Hi Hj.
  - destruct i; discriminate Hi.
  - destruct j as [|j]; [lia |]. simpl in Hj.
    destruct i as [|i]; simpl in Hi.
    + injection Hi as <-.
      exact (proj1 (Forall_forall _ _) Hrest b (nth_error_In _ _ Hj)).
    + apply (IH i j); [lia | exact Hi | exact Hj].
Qed.

(** With distinct ids the filter of a removal takes out one entry at
    most. *)
Lemma filter_drops_one (idToRemove : string) (l : list AssetType) :
  NoDup (map id l) ->
  (List.length l
   <= S (List.length (filter (fun type => negb (String.eqb (id type) idToRemove)) l)))%nat.
Proof.
  induction l as [|a l IH]; simpl; intros Hnd; [lia |].
  apply NoDup_cons_iff in Hnd. destruct Hnd as [Hfresh Hrest].
  destruct (String.eqb_spec (id a) idToRemove) as [Heq | Hne]; simpl.
  - rewrite filter_keeps_all; [lia |].
    intros x Hx. apply negb_true_iff, String.eqb_neq. intros Hid.
    apply Hfresh. rewrite Heq, <- Hid. now apply in_map.
  - specialize (IH Hrest). lia.
Qed.

(** What the remove handler does. It never touches the counters. With the
    default types in front, the id of a default type is refused, whatever
    the size of the registry. With distinct ids, a removal that would leave
    no type is refused, and a removal that is not refused takes out the one
    entry of that id and leaves the others in their order. *)
Lemma handleRemoveAssetType_effect (clk : nat -> Date) (idToRemove : string)
    (st : AppState) (w : World) :
  let st' := fst (run clk (handleRemoveAssetType idToRemove st) w) in
  lastGeneratedCounters st' = lastGeneratedCounters st
  /\ (forall t,
         defaults_first (assetTypes st) = true ->
         In t (assetTypes st) -> id t = idToRemove -> isDefault t = true ->
         run clk (handleRemoveAssetType idToRemove st) w
         = (st, alerted "Default asset types cannot be removed." w))
  /\ (NoDup (map id (assetTypes st)) ->
      filter (fun type => negb (String.eqb (id type) idToRemove)) (assetTypes st) = [] ->
      st' = st)
  /\ (forall before t after,
         assetTypes st = before ++ t :: after ->
         id t = idToRemove ->
         isDefault t = false ->
         (forall u, In u (before ++ after) -> id u <> idToRemove) ->
         before ++ after <> [] ->
         assetTypes st' = before ++ after
         /\ snd (run clk (handleRemoveAssetType idToRemove st) w) = w).
Proof.
  intros st'. split; [| split; [| split]].
  - apply handleRemoveAssetType_counters.
  - intros t Hfirst Hin Hid Hdef. unfold handleRemoveAssetType.
    destruct (defaults_first_find _ t Hfirst Hin Hdef) as (t0 & Hfind & Hdef0).
    rewrite Hid in Hfind. now rewrite Hfind, Hdef0.
  - intros Hnd Hnone. unfold st', handleRemoveAssetType.
    destruct (match findById idToRemove (assetTypes st) with
              | Some t => isDefault t
              | None => false
              end); [reflexivity |].
    pose proof (filter_drops_one idToRemove (assetTypes st) Hnd) as Hlen.
    rewrite Hnone in Hlen. simpl in Hlen.
    apply Nat.leb_le in Hlen. now rewrite Hlen.
  - intros before t after Htypes Ht Hdef Hothers Hrest.
    assert (Hbefore : forall u, In u before -> id u <> idToRemove).
    { intros u Hu. apply Hothers, in_or_app. now left. }
    assert (Hfind : findById idToRemove (assetTypes st) = Some t).
    { rewrite Htypes, findById_skip by exact Hbefore.
      unfold findById. simpl. now rewrite Ht, String.eqb_refl. }
    assert (Hlen : (List.length (assetTypes st) <=? 1)%nat = false).
    { apply Nat.leb_gt. rewrite Htypes, List.length_app. simpl.
      destruct before, after; simpl; try lia. now contradiction Hrest. }
    unfold st', handleRemoveAssetType. rewrite Hfind, Hdef, Hlen.
    destruct (String.eqb (selectedType st) idToRemove);
      cbn [run fst snd assetTypes setSelectedType setAssetTypes];
      rewrite Htypes, filter_removes_the_one by assumption; now split.
Qed.

End RegistryInvariants.

(** X3. With the default types in front of the registry, as they are when
    nothing is stored, no sequence of user actions removes, changes or
    reorders a default type; so a registry that holds a default type never
    runs empty. This holds although ids can repeat: an id that a default
    type bears is always found on a default type first, and the removal is
    refused. *)
Theorem default_types_stay (clk : nat -> Date) (actions : list Action)
    (st : AppState) (w : World) :
  defaults_first (assetTypes st) = true ->
  let final := fst (run clk (session actions st) w) in
  defaults_first (assetTypes final) = true
  /\ filter isDefault (assetTypes final) = filter isDefault (assetTypes st)
  /\ (forall t, In t (assetTypes st) -> isDefault t = true ->
        In t (assetTypes final))
  /\ ((exists d, In d (assetTypes st) /\ isDefault d = true) ->
      assetTypes final <> []).
Proof.
  intros Hfirst final.
  assert (H : defaults_first (assetTypes final) = true
              /\ filter isDefault (assetTypes final)
                 = filter isDefault (assetTypes st)).
  { apply (session_registry_invariant clk
             (fun types => defaults_first types = true
                           /\ filter isDefault types
                              = filter isDefault (assetTypes st))).
    - intros types types' Hstep [Hf Hd].
      destruct (step_keeps_defaults types types' Hstep Hf) as [Hf' Hd'].
      split; [exact Hf' | congruence].
    - now split. }
  destruct H as [Hf Hd].
  assert (Hstay : forall t, In t (assetTypes st) -> isDefault t = true ->
                    In t (assetTypes final)).
  { intros t Hin Ht.
    assert (Hfiltered : In t (filter isDefault (assetTypes final))).
    { rewrite Hd. apply filter_In. now split. }
    apply filter_In in Hfiltered. tauto. }
  split; [exact Hf | split; [exact Hd | split; [exact Hstay |]]].
  intros (d & Hin & Hdef) Hempty.
  pose proof (Hstay d Hin Hdef) as Hleft. rewrite Hempty in Hleft. exact Hleft.
Qed.

(** The laptop type is still there after a type was added and the remove
    button of the new card was pressed. *)
Lemma default_types_stay_witness :
  In laptop
     (assetTypes
        (fst (run (frozen june2024)
                (session (List.app addDesktop [RemoveCard 6]) initialState) world0)))
  /\ assetTypes
       (fst (run (frozen june2024)
               (session (List.app addDesktop [RemoveCard 6]) initialState) world0))
     <> [].
Proof.
  destruct (default_types_stay (frozen june2024)
              (List.app addDesktop [RemoveCard 6]) initialState world0)
    as (_ & _ & Hstay & Hleft); [reflexivity |].
  split.
  - apply Hstay; [simpl; tauto | reflexivity].
  - apply Hleft. exists laptop. split; [simpl; tauto | reflexivity].
Defined.

(** X4. Prefixes and names stay distinct. If the prefixes of the registry
    differ even with case ignored, its names differ even with case ignored
    and every prefix is upper case with two or three characters, then the
    same holds after any sequence of user actions; the prefixes are then
    distinct as they stand. *)
Theorem registry_stays_tidy (clk : nat -> Date) (actions : list Action)
    (st : AppState) (w : World) :
  tidy_registry (assetTypes st) ->
  let final := fst (run clk (session actions st) w) in
  tidy_registry (assetTypes final)
  /\ NoDup (map prefix (assetTypes final)).
Proof.
  intros Htidy final.
  assert (H : tidy_registry (assetTypes final))
    by exact (session_registry_invariant clk _ step_keeps_tidy actions st w Htidy).
  split; [exact H | now apply tidy_prefixes_distinct].
Qed.

Lemma registry_stays_tidy_witness :
  NoDup (map prefix
           (assetTypes
              (fst (run (frozen june2024) (session addTwoAlike initialState) world0)))).
Proof.
  apply (registry_stays_tidy (frozen june2024) addTwoAlike initialState world0).
  split; [| split].
  - repeat constructor; simpl; intuition discriminate.
  - repeat constructor; simpl; intuition discriminate.
  - repeat constructor; simpl; lia.
Defined.

(** X5. Ranges stay in ascending order. If every range of the registry is
    not empty and ends before the ranges of the types after it begin, the
    range bounds are safe integers and the highest range end leaves room
    below [2^53] for a thousand numbers per action, the same holds after
    the actions: the ranges are ascending, their bounds are safe, and no
    number lies in the ranges of two entries of the registry. *)
Theorem ranges_stay_ascending (clk : nat -> Date) (actions : list Action)
    (st : AppState) (w : World) :
  ascending_ranges (assetTypes st) ->
  safe_registry (assetTypes st) ->
  maxRangeEndOf (assetTypes st) + 1000 * Z.of_nat (List.length actions) < 2 ^ 53 ->
  let final := fst (run clk (session actions st) w) in
  ascending_ranges (assetTypes final)
  /\ safe_registry (assetTypes final)
  /\ maxRangeEndOf (assetTypes final)
     <= maxRangeEndOf (assetTypes st) + 1000 * Z.of_nat (List.length actions)
  /\ (forall i j a b x,
         i <> j ->
         nth_error (assetTypes final) i = Some a ->
         nth_error (assetTypes final) j = Some b ->
         in_range x a -> ~ in_range x b).
Proof.
  intros Hasc Hsafe Hroom final.
  assert (H : ascending_ranges (assetTypes final))
    by exact (session_registry_invariant clk _ step_keeps_ascending actions st w Hasc).
  destruct (session_keeps_safe_registry clk actions st w Hsafe Hroom)
    as [Hsafe' Hmax'].
  split; [exact H | split; [exact Hsafe' | split; [exact Hmax' |]]].
  intros i j a b x Hij Hi Hj [Ha1 Ha2] [Hb1 Hb2].
  destruct (Nat.lt_total i j) as [Hlt | [Heq | Hgt]].
  - pose proof (ascending_nth _ H i j a b Hlt Hi Hj). lia.
  - contradiction.
  - pose proof (ascending_nth _ H j i b a Hgt Hj Hi). lia.
Qed.

Lemma ranges_stay_ascending_witness :
  ascending_ranges
    (assetTypes
       (fst (run (frozen june2024)
               (session (List.app addTwoAlike [RemoveCard 6]) initialState) world0))).
Proof.
  apply (ranges_stay_ascending (frozen june2024) (List.app addTwoAlike [RemoveCard 6])
           initialState world0).
  - repeat (constructor;
            [simpl; lia | repeat (constructor; [simpl; lia |]); constructor |]).
    constructor.
  - intros t Ht. cbn in Ht.
    intuition (subst; split; split; reflexivity).
  - reflexivity.
Defined.

(** ** The selection *)

Section Selection.

#[local] Open Scope list_scope.

Lemma findById_app (x : string) (l l' : list AssetType) (t : AssetType) :
  findById x l = Some t -> findById x (l ++ l') = Some t.
Proof.
  unfold findById. induction l as [|a l IH]; simpl; [discriminate |].
  destruct (String.eqb (id a) x); [trivial | exact IH].
Qed.

Lemma findById_member (u : AssetType) (l : list AssetType) :
  In u l -> exists t, findById (id u) l = Some t.
Proof.
  unfold findById. induction l as [|a l IH]; simpl; [contradiction |].
  intros Hin. destruct (String.eqb_spec (id a) (id u)) as [_ | Hne].
  - now exists a.
  - destruct Hin as [-> | Hin]; [now contradiction Hne | now apply IH].
Qed.

Lemma findById_filter_other (x y : string) (l : list AssetType) :
  x <> y ->
  findById x (filter (fun type => negb (String.eqb (id type) y)) l) = findById x l.
Proof.
  intros Hxy. unfold findById. induction l as [|a l IH]; simpl; [reflexivity |].
  destruct (String.eqb_spec (id a) y) as [Hy | Hy]; simpl.
  - destruct (String.eqb_spec (id a) x) as [Hx | _]; [congruence | exact IH].
  - destruct (String.eqb (id a) x); [reflexivity | exact IH].
Qed.

Variable clk : nat -> Date.

Lemma act_keeps_selection (a : Action) (st : AppState) (w : World) :
  sound_selection st -> sound_selection (fst (run clk (act a st) w)).
Proof.
  intros (Hfirst & (d & Hd & Hdef) & (t & Hsel)).
  destruct (step_keeps_defaults _ _ (act_registry_step clk a st w) Hfirst)
    as [Hfirst' Hdefaults].
  assert (Hd' : exists d', In d' (assetTypes (fst (run clk (act a st) w)))
                           /\ isDefault d' = true).
  { exists d. split; [| exact Hdef].
    assert (H : In d (filter isDefault (assetTypes (fst (run clk (act a st) w))))).
    { rewrite Hdefaults. apply filter_In. now split. }
    apply filter_In in H. tauto. }
  split; [exact Hfirst' | split; [exact Hd' |]].
  clear Hfirst' Hdefaults. destruct Hd' as (d' & Hd' & _).
  destruct a as [| | value | value | | n | n |]; simpl in *.
  - now exists t.
  - destruct (showAddForm st); now exists t.
  - destruct (showAddForm st); now exists t.
  - destruct (showAddForm st); now exists t.
  - destruct (showAddForm st); [| now exists t].
    destruct (handleAddAssetType_cases st) as [[msg ->] | (_ & _ & _ & _ & ->)].
    + now exists t.
    + exists t. cbn [run fst assetTypes selectedType setShowAddForm
                     setNewAssetType setAssetTypes].
      now apply findById_app.
  - destruct (nth_error (assetTypes st) n) as [type|] eqn:Hn; [| now exists t].
    cbn [run fst assetTypes selectedType setSelectedType].
    apply findById_member. exact (nth_error_In _ _ Hn).
  - destruct (nth_error (assetTypes st) n) as [type|]; [| now exists t].
    destruct (isDefault type); [now exists t |].
    revert Hd'. unfold handleRemoveAssetType.
    destruct (match findById (id type) (assetTypes st) with
              | Some t0 => isDefault t0
              | None => false
              end); [now exists t |].
    destruct (List.length (assetTypes st) <=? 1)%nat; [now exists t |].
    destruct (String.eqb_spec (selectedType st) (id type)) as [Heq | Hne];
      cbn [run fst assetTypes selectedType setSelectedType setAssetTypes];
      intros Hd'.
    + destruct (filter _ (assetTypes st)) as [|first rest]; [contradiction |].
      exists first. unfold findById. simpl. now rewrite String.eqb_refl.
    + exists t. now rewrite findById_filter_other.
  - destruct (Js.truthy (selectedType st)); [| now exists t].
    destruct (handleGenerate_frame clk st w) as (-> & -> & _). now exists t.
Qed.

Lemma session_keeps_selection (actions : list Action) :
  forall (st : AppState) (w : World),
    sound_selection st -> sound_selection (fst (run clk (session actions st) w)).
Proof.
  induction actions as [|a actions IH]; intros st w H; simpl.
  - exact H.
  - rewrite run_bind. apply IH. now apply act_keeps_selection.
Qed.

End Selection.

(** X6. The selection always names a type. From a state whose registry has
    its default types in front, at least one of them, and whose selection
    names a type of the registry, every sequence of user actions leads to a
    state whose selection names a type of the registry; and when the remove
    button of the selected type then changes the registry, something is
    left in it and the selection is the first type that is left. So the
    Generate button never finds nothing to generate for. *)
Theorem selection_names_a_type (clk : nat -> Date) (actions : list Action)
    (st : AppState) (w : World) :
  defaults_first (assetTypes st) = true ->
  (exists d, In d (assetTypes st) /\ isDefault d = true) ->
  (exists t, findById (selectedType st) (assetTypes st) = Some t) ->
  let final := fst (run clk (session actions st) w) in
  (exists t, findById (selectedType final) (assetTypes final) = Some t
             /\ In t (assetTypes final)
             /\ id t = selectedType final)
  /\ (forall (n : nat) (type : AssetType) (w' : World),
         let removed := fst (run clk (act (RemoveCard n) final) w') in
         nth_error (assetTypes final) n = Some type ->
         id type = selectedType final ->
         assetTypes removed <> assetTypes final ->
         exists first rest,
           assetTypes removed = first :: rest
           /\ selectedType removed = id first).
Proof.
  intros Hfirst Hd Hsel final.
  destruct (session_keeps_selection clk actions st w (conj Hfirst (conj Hd Hsel)))
    as (Hfirst' & (d & Hd' & Hdef') & (t & Ht)).
  fold final in Hfirst', Hd', Ht.
  split.
  - exists t. split; [exact Ht |].
    unfold findById in Ht. apply find_some in Ht.
    split; [tauto | now apply String.eqb_eq].
  - intros n type w' removed Hn Hid. unfold removed. clear removed.
    cbn [act]. rewrite Hn.
    destruct (isDefault type); [intros H; now contradiction H |].
    unfold handleRemoveAssetType.
    destruct (match findById (id type) (assetTypes final) with
              | Some t0 => isDefault t0
              | None => false
              end) eqn:Hguard; [intros H; now contradiction H |].
    destruct (List.length (assetTypes final) <=? 1)%nat;
      [intros H; now contradiction H |].
    rewrite <- Hid, String.eqb_refl.
    cbn [run fst assetTypes selectedType setSelectedType setAssetTypes].
    intros _.
    destruct (filter (fun type0 => negb (String.eqb (id type0) (id type)))
                     (assetTypes final)) as [|first rest] eqn:Hleft.
    + exfalso.
      assert (Hin : In d (filter (fun type0 => negb (String.eqb (id type0) (id type)))
                                 (assetTypes final))).
      { apply filter_In. split; [exact Hd' |].
        exact (removal_keeps_defaults (id type) (assetTypes final)
                 Hfirst' Hguard d Hd' Hdef'). }
      rewrite Hleft in Hin. exact Hin.
    + exists first, rest. split; reflexivity.
Qed.

(** A custom type is added and selected; its remove button makes the
    selection fall back to the laptop type. *)
Lemma selection_names_a_type_witness :
  selectedType
    (fst (run (frozen june2024) (session addServerAndSelect initialState) world0))
  = "server"
  /\ exists first rest,
       assetTypes
         (fst (run (frozen june2024)
                 (act (RemoveCard 6)
                    (fst (run (frozen june2024)
                            (session addServerAndSelect initialState) world0)))
                 world0))
       = first :: rest
       /\ selectedType
            (fst (run (frozen june2024)
                    (act (RemoveCard 6)
                       (fst (run (frozen june2024)
                               (session addServerAndSelect initialState) world0)))
                    world0))
          = id first.
Proof.
  destruct (selection_names_a_type (frozen june2024) addServerAndSelect
              initialState world0) as [_ Hremoved].
  - reflexivity.
  - exists laptop. split; [simpl; tauto | reflexivity].
  - exists laptop. reflexivity.
  - split; [reflexivity |].
    apply (Hremoved 6%nat
             (mkAssetType "server" "Server" "SV" HardDrive "default" 6001 7000 false)
             world0).
    + reflexivity.
    + reflexivity.
    + intros H. apply (f_equal (@List.length AssetType)) in H. discriminate H.
Defined.

(** ** The sequence number in the asset number *)

Section Numbers.

Lemma to_uint_no_leading_zero (p : positive) (u : uint) : Pos.to_uint p <> D0 u.
Proof.
  intros E.
  pose proof (DecimalPos.Unsigned.to_of (Pos.to_uint p)) as H.
  rewrite DecimalPos.Unsigned.of_to in H. simpl in H. rewrite E in H.
  unfold unorm in H. destruct (nzhead (D0 u)) eqn:Hn;
    try (symmetry in H; now apply (DecimalFacts.nzhead_nonzero (D0 u) u)).
  - injection H as ->. exact (DecimalPos.Unsigned.to_uint_nonzero p E).
  - rewrite <- H in Hn. now apply (DecimalFacts.nzhead_nonzero (D0 u) u).
Qed.

Lemma toString_pos (p : positive) :
  Js.toString (Z.pos p) = NilEmpty.string_of_uint (Pos.to_uint p).
Proof.
  unfold Js.toString. simpl.
  pose proof (DecimalPos.Unsigned.to_uint_nonnil p) as H.
  now destruct (Pos.to_uint p).
Qed.

Lemma toString_nonempty (z : Z) : Js.toString z <> "".
Proof.
  destruct z as [|p|p]; [discriminate | | discriminate].
  rewrite toString_pos.
  pose proof (DecimalPos.Unsigned.to_uint_nonnil p) as H.
  now destruct (Pos.to_uint p).
Qed.

(** Only zero is written with a leading zero. *)
Lemma toString_zero_head (z : Z) (s : string) :
  Js.toString z = String "0" s -> z = 0 /\ s = "".
Proof.
  destruct z as [|p|p]; intros H.
  - injection H as <-. now split.
  - rewrite toString_pos in H.
    pose proof (to_uint_no_leading_zero p) as Hz.
    destruct (Pos.to_uint p); try discriminate H.
    now contradiction (Hz u).
  - discriminate H.
Qed.

Lemma toString_inj (a b : Z) : Js.toString a = Js.toString b -> a = b.
Proof.
  assert (Hnil : forall z, Z.to_int z <> Pos Nil /\ Z.to_int z <> Neg Nil).
  { intros [|p|p]; simpl; split; try discriminate;
      intros [= E]; exact (DecimalPos.Unsigned.to_uint_nonnil p E). }
  intros H. apply DecimalZ.to_int_inj.
  assert (E : Some (Z.to_int a) = Some (Z.to_int b)).
  { rewrite <- (NilZero.isi (Z.to_int a)), <- (NilZero.isi (Z.to_int b))
      by apply Hnil.
    unfold Js.toString in H. now rewrite H. }
  now injection E.
Qed.

Lemma repeat_to_zero (k : nat) : Js.repeat_to k "0" "0" = Js.repeat_to k "0" "".
Proof. now destruct k. Qed.

Lemma length_zeros (k : nat) : String.length (Js.repeat_to k "0" "") = k.
Proof. induction k as [|k IH]; simpl; [reflexivity | now rewrite IH]. Qed.

(** The padded number is the number behind the zeros it lacks to four
    characters. *)
Lemma formatNum_zeros (n : Z) :
  formatNum n
  = Js.repeat_to (4 - String.length (Js.toString n)) "0" "" ++ Js.toString n.
Proof.
  unfold formatNum, Js.padStart.
  destruct (Nat.leb_spec 4 (String.length (Js.toString n))) as [H | H].
  - replace (4 - String.length (Js.toString n))%nat with 0%nat by lia. reflexivity.
  - now rewrite repeat_to_zero.
Qed.

Lemma zeros_app_inj (a : nat) :
  forall (b : nat) (x y : Z),
    Js.repeat_to a "0" "" ++ Js.toString x = Js.repeat_to b "0" "" ++ Js.toString y ->
    x = y.
Proof.
  assert (Hhead : forall k x y,
             Js.toString x = Js.repeat_to (S k) "0" "" ++ Js.toString y -> False).
  { intros k x y H. simpl in H. apply toString_zero_head in H.
    destruct H as [_ H].
    destruct (Js.repeat_to k "0" ""); [| discriminate H].
    exact (toString_nonempty y H). }
  induction a as [|a IH]; intros [|b] x y H.
  - now apply toString_inj.
  - exfalso. exact (Hhead b x y H).
  - exfalso. symmetry in H. exact (Hhead a y x H).
  - simpl in H. injection H as H. exact (IH b x y H).
Qed.

Lemma parseNum_zeros (k : nat) (s : string) :
  parseNum (Js.repeat_to k "0" "" ++ s) = parseNum s.
Proof.
  induction k as [|k IH]; [reflexivity |].
  cbn [Js.repeat_to append]. unfold parseNum in *. simpl.
  destruct (NilEmpty.uint_of_string (Js.repeat_to k "0" "" ++ s)) as [u|];
    destruct (NilEmpty.uint_of_string s) as [u'|]; simpl in *;
    try discriminate IH; [| reflexivity].
  exact IH.
Qed.

Lemma parseNum_toString (n : Z) : 0 <= n -> parseNum (Js.toString n) = Some n.
Proof.
  destruct n as [|p|p]; [reflexivity | | lia]. intros _.
  rewrite toString_pos. unfold parseNum. rewrite NilEmpty.usu. simpl.
  unfold Z.of_uint. now rewrite DecimalPos.Unsigned.of_to.
Qed.

(** A number of [d] digits with the leading digit [k] lies between
    [k * 10^(d-1)] and [(k+1) * 10^(d-1)]. *)
Lemma of_uint_acc_bounds (l : uint) :
  forall acc : positive,
    Z.pos acc * 10 ^ Z.of_nat (nb_digits l) <= Z.pos (Pos.of_uint_acc l acc)
    /\ Z.pos (Pos.of_uint_acc l acc) < (Z.pos acc + 1) * 10 ^ Z.of_nat (nb_digits l).
Proof.
  induction l as [|l IH|l IH|l IH|l IH|l IH|l IH|l IH|l IH|l IH|l IH];
    intros acc;
    [ simpl; lia
    | cbn [Pos.of_uint_acc nb_digits]; rewrite Nat2Z.inj_succ, Z.pow_succ_r by lia;
      match goal with
      | |- context [Pos.of_uint_acc l ?a] => destruct (IH a) as [Hlo Hhi]
      end;
      assert (Hpow : 0 < 10 ^ Z.of_nat (nb_digits l)) by (apply Z.pow_pos_nonneg; lia);
      split; nia .. ].
Qed.

Lemma digits_of_small (p : positive) :
  Z.pos p <= 9999 -> (nb_digits (Pos.to_uint p) <= 4)%nat.
Proof.
  intros Hp. pose proof (DecimalPos.Unsigned.of_to p) as Hof.
  pose proof (to_uint_no_leading_zero p) as Hz.
  destruct (Nat.le_gt_cases (nb_digits (Pos.to_uint p)) 4) as [H | H]; [exact H |].
  exfalso.
  destruct (Pos.to_uint p) as [|u|u|u|u|u|u|u|u|u|u];
    [ discriminate Hof | now contradiction (Hz u) | .. ];
    cbn [Pos.of_uint] in Hof; injection Hof as Hof;
    cbn [nb_digits] in H;
    match type of Hof with
    | Pos.of_uint_acc u ?a = _ => destruct (of_uint_acc_bounds u a) as [Hlo _]
    end;
    rewrite Hof in Hlo;
    assert (Hpow : 10 ^ 4 <= 10 ^ Z.of_nat (nb_digits u))
      by (apply Z.pow_le_mono_r; lia);
    change (10 ^ 4) with 10000 in Hpow; nia.
Qed.

Lemma digits_of_large (p : positive) :
  10000 <= Z.pos p -> (5 <= nb_digits (Pos.to_uint p))%nat.
Proof.
  intros Hp. pose proof (DecimalPos.Unsigned.of_to p) as Hof.
  pose proof (to_uint_no_leading_zero p) as Hz.
  destruct (Nat.le_gt_cases 5 (nb_digits (Pos.to_uint p))) as [H | H]; [exact H |].
  exfalso.
  destruct (Pos.to_uint p) as [|u|u|u|u|u|u|u|u|u|u];
    [ discriminate Hof | now contradiction (Hz u) | .. ];
    cbn [Pos.of_uint] in Hof; injection Hof as Hof;
    cbn [nb_digits] in H;
    match type of Hof with
    | Pos.of_uint_acc u ?a = _ => destruct (of_uint_acc_bounds u a) as [_ Hhi]
    end;
    rewrite Hof in Hhi;
    assert (Hpow : 10 ^ Z.of_nat (nb_digits u) <= 10 ^ 3)
      by (apply Z.pow_le_mono_r; lia);
    change (10 ^ 3) with 1000 in Hpow; nia.
Qed.

Lemma length_string_of_uint (u : uint) :
  String.length (NilEmpty.string_of_uint u) = nb_digits u.
Proof. induction u; simpl; now rewrite ?IHu. Qed.

End Numbers.

(** X7. The four-digit sequence, on the safe integers. A safe number from
    0 on reads back from its formatted form; two safe numbers with the same
    formatted form are equal; the numbers from 0 to 9999 take exactly four
    characters; a safe number from 10000 on is written in full, with five
    characters or more and no padding. *)
Theorem sequence_number_format :
  (forall n, 0 <= n -> safe_integer n -> parseNum (formatNum n) = Some n)
  /\ (forall n m, safe_integer n -> safe_integer m ->
        formatNum n = formatNum m -> n = m)
  /\ (forall n, 0 <= n <= 9999 ->
        safe_integer n /\ String.length (formatNum n) = 4%nat)
  /\ (forall n, 10000 <= n -> safe_integer n ->
        formatNum n = Js.toString n /\ (5 <= String.length (formatNum n))%nat).
Proof.
  split; [| split; [| split]].
  - intros n Hn _. rewrite formatNum_zeros, parseNum_zeros.
    now apply parseNum_toString.
  - intros n m _ _ H. rewrite !formatNum_zeros in H.
    exact (zeros_app_inj _ _ n m H).
  - intros n Hn. split; [unfold safe_integer; lia |]. revert Hn.
    destruct n as [|p|p]; intros Hn; [reflexivity | | lia].
    rewrite formatNum_zeros, length_app, length_zeros, toString_pos,
      length_string_of_uint.
    pose proof (digits_of_small p ltac:(lia)). lia.
  - intros [|p|p] Hn _; [lia | | lia].
    assert (Hlen : (5 <= String.length (Js.toString (Z.pos p)))%nat).
    { rewrite toString_pos, length_string_of_uint. now apply digits_of_large. }
    rewrite formatNum_zeros.
    replace (4 - String.length (Js.toString (Z.pos p)))%nat with 0%nat by lia.
    split; [reflexivity | exact Hlen].
Qed.

Lemma sequence_number_format_witness :
  parseNum (formatNum 42) = Some 42.
Proof.
  apply (proj1 sequence_number_format 42); [lia | split; reflexivity].
Defined.

(** ** Numbers handed out in a row *)

Section Issued.

#[local] Open Scope list_scope.

Lemma app_inv_head_string (a b c : string) :
  (a ++ b)%string = (a ++ c)%string -> b = c.
Proof.
  induction a as [|x a IH]; simpl; [trivial |].
  intros H. injection H as H. now apply IH.
Qed.

Lemma distinct_images (number : nat -> string) (clicks : list nat) :
  (forall i j, number i = number j -> i = j) ->
  NoDup clicks -> NoDup (map number clicks).
Proof.
  intros Hinj Hnd. induction Hnd as [|i clicks Hfresh _ IH]; simpl; constructor.
  - intros Hin. apply in_map_iff in Hin. destruct Hin as (j & Hj & Hin).
    apply Hinj in Hj. now subst j.
  - exact IH.
Qed.

Variable clk : nat -> Date.
Variable asset : AssetType.
Variable now : Date.
Hypothesis clock_ok : forall i, wall_clock (clk i) /\ same_period (clk i) now.

(** Clicks on a full range: nothing is displayed, nothing is counted. *)
Lemma run_generateMany_full (m : nat) :
  forall (st : AppState) (w : World),
    findById (selectedType st) (assetTypes st) = Some asset ->
    rangeEnd asset < lastUsedNumberOf asset (lastGeneratedCounters st) now + 1 ->
    fst (fst (run clk (generateMany m st) w)) = repeat ""%string m
    /\ lastGeneratedCounters (snd (fst (run clk (generateMany m st) w)))
       = lastGeneratedCounters st.
Proof.
  induction m as [|m IH]; intros st w Hfind Hfull; [now split |].
  destruct (clock_ok (clockReads w)) as [_ Hperiod].
  assert (Hstep := run_handleGenerate_full clk st asset w Hfind).
  cbv zeta in Hstep.
  rewrite (lastUsedNumberOf_same_period asset _ _ _ Hperiod) in Hstep.
  specialize (Hstep Hfull).
  simpl generateMany. rewrite !run_bind, Hstep. cbn [fst snd run].
  destruct (IH (setGeneratedNumber "" st)
              (alerted (exhaustedAlert asset (clk (clockReads w)))
                 (warned (exhaustedWarning asset (clk (clockReads w))) (tick w))))
    as [Hnums Hcounters]; [exact Hfind | exact Hfull |].
  split; [| exact Hcounters].
  rewrite Hnums. reflexivity.
Qed.

Lemma run_generateMany_app (n m : nat) :
  forall (st : AppState) (w : World),
    let first := run clk (generateMany n st) w in
    let second := run clk (generateMany m (snd (fst first))) (snd first) in
    fst (fst (run clk (generateMany (n + m) st) w))
    = fst (fst first) ++ fst (fst second)
    /\ snd (fst (run clk (generateMany (n + m) st) w)) = snd (fst second).
Proof.
  induction n as [|n IH]; intros st w; [now split |].
  cbn zeta. simpl generateMany. rewrite !run_bind. cbn [fst snd run].
  destruct (IH (fst (run clk (handleGenerate st) w))
              (snd (run clk (handleGenerate st) w))) as [Hnums Hfinal].
  cbn zeta in Hnums, Hfinal.
  split; [now rewrite Hnums | exact Hfinal].
Qed.

End Issued.

Lemma generateMany_frame (clk : nat -> Date) (n : nat) :
  forall (st : AppState) (w : World),
    assetTypes (snd (fst (run clk (generateMany n st) w))) = assetTypes st
    /\ selectedType (snd (fst (run clk (generateMany n st) w))) = selectedType st.
Proof.
  induction n as [|n IH]; intros st w; [now split |].
  simpl generateMany. rewrite !run_bind. cbn [fst snd run].
  destruct (IH (fst (run clk (handleGenerate st) w))
              (snd (run clk (handleGenerate st) w))) as [-> ->].
  destruct (handleGenerate_frame clk st w) as (-> & -> & _). now split.
Qed.

(** X8. Numbers handed out in a row are all different. While the clock
    stays in one period and [n] numbers are left in the range of the
    selected type, the range bounds and the counters being safe integers,
    [n] clicks on Generate display [n] asset numbers, no two of them
    equal. *)
Theorem issued_numbers_are_distinct (clk : nat -> Date) (asset : AssetType)
    (now : Date) (n : nat) (st : AppState) (w : World) :
  (forall i, wall_clock (clk i) /\ same_period (clk i) now) ->
  findById (selectedType st) (assetTypes st) = Some asset ->
  Map_wf (lastGeneratedCounters st) ->
  safe_type asset ->
  safe_counters (lastGeneratedCounters st) ->
  lastUsedNumberOf asset (lastGeneratedCounters st) now + Z.of_nat n
  <= rangeEnd asset ->
  List.length (fst (fst (run clk (generateMany n st) w))) = n
  /\ NoDup (fst (fst (run clk (generateMany n st) w))).
Proof.
  intros Hclk Hfind Hwf _ _ Hroom.
  destruct (run_generateMany clk asset now Hclk n st w Hfind Hwf Hroom)
    as (-> & _).
  split; [now rewrite length_map, length_seq |].
  apply distinct_images; [| apply seq_NoDup].
  intros i j H.
  apply app_inv_head_string in H.
  rewrite !formatNum_zeros in H. apply zeros_app_inj in H. lia.
Qed.

Lemma issued_numbers_are_distinct_witness :
  NoDup (fst (fst (run (frozen june2024) (generateMany 5 initialState) world0))).
Proof.
  apply (issued_numbers_are_distinct (frozen june2024) laptop june2024 5
           initialState world0).
  - intros i. split; [unfold wall_clock; simpl; lia | split; reflexivity].
  - reflexivity.
  - constructor.
  - repeat split; reflexivity.
  - intros k v Hget. discriminate Hget.
  - simpl; lia.
Defined.

(** X9. What is left of a range. With the last used number at or below the
    end of the range, the range bounds and the counters being safe
    integers, exactly [rangeEnd - lastUsed] clicks in the period display a
    number, the successors of the last used one up to the end of the range;
    every click after them displays nothing and leaves the counter at the
    end of the range. *)
Theorem range_runs_out (clk : nat -> Date) (asset : AssetType) (now : Date)
    (m : nat) (st : AppState) (w : World) :
  let lastUsed := lastUsedNumberOf asset (lastGeneratedCounters st) now in
  let left := Z.to_nat (rangeEnd asset - lastUsed) in
  let final := snd (fst (run clk (generateMany (left + m) st) w)) in
  (forall i, wall_clock (clk i) /\ same_period (clk i) now) ->
  findById (selectedType st) (assetTypes st) = Some asset ->
  Map_wf (lastGeneratedCounters st) ->
  safe_type asset ->
  safe_counters (lastGeneratedCounters st) ->
  lastUsed <= rangeEnd asset ->
  fst (fst (run clk (generateMany (left + m) st) w))
  = List.app
      (map (fun i => keyPrefixOf asset now ++ formatNum (lastUsed + Z.of_nat i))
           (seq 1 left))
      (repeat "" m)
  /\ lastUsedNumberOf asset (lastGeneratedCounters final) now = rangeEnd asset.
Proof.
  intros lastUsed left final Hclk Hfind Hwf _ _ Hle.
  assert (Hroom : lastUsed + Z.of_nat left <= rangeEnd asset)
    by (unfold left; lia).
  destruct (run_generateMany clk asset now Hclk left st w Hfind Hwf Hroom)
    as (Hnums & Hlast & _).
  fold lastUsed in Hnums, Hlast.
  destruct (generateMany_frame clk left st w) as [Htypes Hsel].
  destruct (run_generateMany_app clk left m st w) as [Happ Hfinal].
  cbv zeta in Happ, Hfinal.
  set (st1 := snd (fst (run clk (generateMany left st) w))) in *.
  assert (Hfind1 : findById (selectedType st1) (assetTypes st1) = Some asset)
    by now rewrite Htypes, Hsel.
  assert (Hfull : rangeEnd asset
                  < lastUsedNumberOf asset (lastGeneratedCounters st1) now + 1)
    by (rewrite Hlast; unfold left; lia).
  destruct (run_generateMany_full clk asset now Hclk m st1
              (snd (run clk (generateMany left st) w)) Hfind1 Hfull)
    as [Hblank Hcounters].
  split.
  - now rewrite Happ, Hnums, Hblank.
  - unfold final. rewrite Hfinal, Hcounters, Hlast. unfold left. lia.
Qed.

(** Three numbers are left of the laptop range; five clicks. *)
Lemma range_runs_out_witness :
  fst (fst (run (frozen june2024)
              (generateMany 5
                 (setLastGeneratedCounters (fun _ => [("LT2406", 997)]) initialState))
              world0))
  = ["LT24060998"; "LT24060999"; "LT24061000"; ""; ""].
Proof.
  pose proof (range_runs_out (frozen june2024) laptop june2024 2
                (setLastGeneratedCounters (fun _ => [("LT2406", 997)]) initialState)
                world0) as H.
  cbv zeta in H. destruct H as [H _].
  - intros i. split; [unfold wall_clock; simpl; lia | split; reflexivity].
  - reflexivity.
  - repeat constructor. simpl. tauto.
  - repeat split; reflexivity.
  - intros k v Hget.
    change (Map_get k [("LT2406", 997)] = Some v) in Hget.
    cbn [Map_get] in Hget.
    destruct (String.eqb "LT2406" k); [| discriminate Hget].
    injection Hget as <-. split; reflexivity.
  - vm_compute. discriminate.
  - exact H.
Defined.

(** ** Keys of different types and months *)

Section Keys.

Lemma app_inj_length (a a' b b' : string) :
  String.length a = String.length a' ->
  a ++ b = a' ++ b' -> a = a' /\ b = b'.
Proof.
  revert a'. induction a as [|c a IH]; intros [|c' a'] Hlen H;
    try discriminate Hlen.
  - now split.
  - simpl in H. injection H as -> H. injection Hlen as Hlen.
    destruct (IH a' Hlen H) as [-> ->]. now split.
Qed.

Lemma keyPrefixOf_inj (a1 a2 : AssetType) (d1 d2 : Date) :
  wall_clock d1 -> wall_clock d2 ->
  keyPrefixOf a1 d1 = keyPrefixOf a2 d2 ->
  prefix a1 = prefix a2 /\ yearOf d1 = yearOf d2 /\ monthOf d1 = monthOf d2.
Proof.
  intros H1 H2 Hkey.
  pose proof (length_keyPrefixOf a1 d1 H1) as L1.
  pose proof (length_keyPrefixOf a2 d2 H2) as L2.
  rewrite Hkey in L1. unfold keyPrefixOf in Hkey.
  apply app_inj_length in Hkey; [| lia].
  destruct Hkey as [Hp Hrest]. split; [exact Hp |].
  apply app_inj_length in Hrest; [exact Hrest |].
  destruct H1 as [Hy1 _], H2 as [Hy2 _].
  now rewrite !length_yearOf.
Qed.

Lemma monthOf_inj (d1 d2 : Date) :
  0 <= getMonth d1 <= 11 -> 0 <= getMonth d2 <= 11 ->
  monthOf d1 = monthOf d2 -> getMonth d1 = getMonth d2.
Proof.
  intros H1 H2. unfold monthOf.
  assert (Hin1 : In (getMonth d1) [0; 1; 2; 3; 4; 5; 6; 7; 8; 9; 10; 11])
    by (simpl; lia).
  assert (Hin2 : In (getMonth d2) [0; 1; 2; 3; 4; 5; 6; 7; 8; 9; 10; 11])
    by (simpl; lia).
  simpl in Hin1, Hin2.
  repeat (destruct Hin1 as [<- | Hin1];
          [ repeat (destruct Hin2 as [<- | Hin2];
                    [ first [reflexivity | discriminate] |]);
            contradiction |]).
  contradiction.
Qed.

End Keys.

(** X10. Generating for one type in one month changes nothing for another.
    After a click on Generate, the number that a type with another prefix
    would get next, at any time, is what it was before the click; so is the
    number the same type would get in another month, or in a year ending in
    other digits. *)
Theorem counters_do_not_interfere (clk : nat -> Date) (st : AppState)
    (asset other : AssetType) (w : World) (later : Date) :
  let now := clk (clockReads w) in
  let st' := fst (run clk (handleGenerate st) w) in
  findById (selectedType st) (assetTypes st) = Some asset ->
  Map_wf (lastGeneratedCounters st) ->
  wall_clock now ->
  wall_clock later ->
  prefix other <> prefix asset
  \/ getMonth later <> getMonth now
  \/ yearOf later <> yearOf now ->
  lastUsedNumberOf other (lastGeneratedCounters st') later
  = lastUsedNumberOf other (lastGeneratedCounters st) later.
Proof.
  intros now st' Hfind Hwf Hnow Hlater Hdiff. unfold st'.
  destruct (Z.le_gt_cases
              (lastUsedNumberOf asset (lastGeneratedCounters st) now + 1)
              (rangeEnd asset)) as [Hle | Hgt].
  - rewrite (run_handleGenerate_next clk st asset w Hfind Hwf Hnow Hle).
    fold now.
    cbn [fst lastGeneratedCounters setGeneratedNumber setLastGeneratedCounters].
    unfold lastUsedNumberOf at 1 3.
    rewrite Map_get_set_ne; [reflexivity |].
    intros Hkey.
    destruct (keyPrefixOf_inj asset other now later Hnow Hlater Hkey)
      as (Hp & Hy & Hm).
    destruct Hdiff as [Hd | [Hd | Hd]]; [congruence | | congruence].
    apply Hd. symmetry.
    apply monthOf_inj; [apply Hnow | apply Hlater | exact Hm].
  - now rewrite (run_handleGenerate_full clk st asset w Hfind Hgt).
Qed.

(** A laptop number in June 2024 leaves the July counter of the laptops
    alone. *)
Lemma counters_do_not_interfere_witness :
  lastUsedNumberOf laptop
    (lastGeneratedCounters
       (fst (run (frozen june2024)
               (handleGenerate
                  (setLastGeneratedCounters (fun _ => [("LT2407", 12)]) initialState))
               world0)))
    july2024
  = 12.
Proof.
  rewrite (counters_do_not_interfere (frozen june2024)
             (setLastGeneratedCounters (fun _ => [("LT2407", 12)]) initialState)
             laptop laptop world0 july2024).
  - reflexivity.
  - reflexivity.
  - repeat constructor. simpl. tauto.
  - unfold wall_clock; simpl; lia.
  - unfold wall_clock; simpl; lia.
  - right; left. simpl. lia.
Defined.

(** X11. The bounds of a number handed out, the range bounds and the
    counters being safe integers. The generator never returns a number
    above [rangeEnd], and the number is a safe integer. It does not look at
    [rangeStart] once a counter is stored: the number is at least
    [rangeStart] exactly when the stored counter, if there is one, is at
    least [rangeStart - 1]; with no counter stored the number is
    [rangeStart]. *)
Theorem issued_number_bounds (clk : nat -> Date) (asset : AssetType)
    (counters : JsMap) (w : World) (r : Generated) :
  let now := clk (clockReads w) in
  safe_type asset ->
  safe_counters counters ->
  fst (run clk (generateNextAssetNumber asset counters) w) = Some r ->
  nextCounterValue r <= rangeEnd asset
  /\ safe_integer (nextCounterValue r)
  /\ match Map_get (keyPrefixOf asset now) counters with
     | Some stored =>
         nextCounterValue r = stored + 1
         /\ (rangeStart asset <= nextCounterValue r
             <-> rangeStart asset - 1 <= stored)
     | None => nextCounterValue r = rangeStart asset
     end.
Proof.
  intros now Hasset Hcnt Hres. apply run_generate_Some in Hres. fold now in Hres.
  destruct Hres as [Hle ->]. cbn [nextCounterValue].
  split; [exact Hle |].
  split; [exact (proj2 (next_number_safe asset counters now Hasset Hcnt Hle)) |].
  unfold lastUsedNumberOf.
  destruct (Map_get (keyPrefixOf asset now) counters) as [stored|]; lia.
Qed.

(** A type with the range 8001 to 9000 takes over the counter 6001 that a
    removed type with the same prefix left, and hands out 6002. *)
Lemma issued_number_bounds_witness :
  nextCounterValue (mkGenerated "AA24066002" 6002) <= 9000
  /\ safe_integer (nextCounterValue (mkGenerated "AA24066002" 6002))
  /\ match Map_get "AA2406" [("AA2406", 6001)] with
     | Some stored =>
         nextCounterValue (mkGenerated "AA24066002" 6002) = stored + 1
         /\ (8001 <= nextCounterValue (mkGenerated "AA24066002" 6002)
             <-> 8001 - 1 <= stored)
     | None => nextCounterValue (mkGenerated "AA24066002" 6002) = 8001
     end.
Proof.
  apply (issued_number_bounds (frozen june2024)
           (mkAssetType "archive-a" "Archive A" "AA" HardDrive "default" 8001 9000 false)
           [("AA2406", 6001)] world0 (mkGenerated "AA24066002" 6002)).
  - repeat split; reflexivity.
  - intros k v Hget. cbn [Map_get] in Hget.
    destruct (String.eqb "AA2406" k); [| discriminate Hget].
    injection Hget as <-. split; reflexivity.
  - reflexivity.
Defined.

(** ** Blank input *)

Section Blank.

Lemma trimStart_blank (s : string) :
  Js.trimStart s = ""
  <-> forallb Js.is_space (list_ascii_of_string s) = true.
Proof.
  induction s as [|c s IH]; simpl; [tauto |].
  destruct (Js.is_space c); simpl; [exact IH |].
  split; discriminate.
Qed.

Lemma trimStart_head (s : string) (c : ascii) (r : string) :
  Js.trimStart s = String c r -> Js.is_space c = false.
Proof.
  induction s as [|a s IH]; simpl; [discriminate |].
  destruct (Js.is_space a) eqn:Ha; [exact IH |].
  intros [= <- _]. exact Ha.
Qed.

Lemma trimEnd_keeps_head (c : ascii) (r : string) :
  Js.is_space c = false -> Js.trimEnd (String c r) <> "".
Proof.
  intros Hc. simpl. destruct (Js.trimEnd r); [now rewrite Hc | discriminate].
Qed.

(** [trim] leaves nothing exactly of the strings made of white space. *)
Lemma trim_blank (s : string) :
  Js.trim s = ""
  <-> forallb Js.is_space (list_ascii_of_string s) = true.
Proof.
  rewrite <- trimStart_blank. unfold Js.trim.
  destruct (Js.trimStart s) as [|c r] eqn:Hs; [tauto |].
  split; [| discriminate].
  intros H. exfalso.
  exact (trimEnd_keeps_head c r (trimStart_head s c r Hs) H).
Qed.

Lemma truthy_false (s : string) : Js.truthy s = false <-> s = "".
Proof. destruct s; simpl; split; trivial; discriminate. Qed.

Lemma length_toUpperCase (s : string) :
  String.length (Js.toUpperCase s) = String.length s.
Proof.
  unfold Js.toUpperCase. induction s as [|c s IH]; simpl; [reflexivity | now rewrite IH].
Qed.

Lemma toUpperCase_empty (s : string) : Js.toUpperCase s = "" <-> s = "".
Proof. destruct s; simpl; split; trivial; discriminate. Qed.

End Blank.

(** X12. What the add form answers, on ASCII text. A name made of white
    space only is refused as empty whatever the prefix; with a name, a
    prefix made of white space only is refused as empty; with both, a
    prefix that is not two or three characters long once trimmed is refused
    for its length. Every refusal leaves the state as it is, the form open
    with what was typed. An accepted add, while the highest range end
    leaves room for a thousand numbers below [2^53], appends one type, not
    default, with the trimmed name, the trimmed upper-case prefix and the
    fallback icon, closes and empties the form and changes nothing else. *)
Theorem add_form_answers (st : AppState) :
  let blank := fun s => forallb Js.is_space (list_ascii_of_string s) = true in
  let newName := fst (newAssetType st) in
  let newPrefix := snd (newAssetType st) in
  ascii_only newName ->
  ascii_only newPrefix ->
  ascii_registry (assetTypes st) ->
  (blank newName ->
   handleAddAssetType st = Alert "Asset Name cannot be empty." (Ret st))
  /\ (~ blank newName -> blank newPrefix ->
      handleAddAssetType st = Alert "Prefix cannot be empty." (Ret st))
  /\ (~ blank newName -> ~ blank newPrefix ->
      ~ (2 <= String.length (Js.trim newPrefix) <= 3)%nat ->
      handleAddAssetType st
      = Alert "Prefix must be 2 or 3 characters long." (Ret st))
  /\ (forall msg st', handleAddAssetType st = Alert msg (Ret st') -> st' = st)
  /\ (forall st',
        maxRangeEndOf (assetTypes st) + 1000 < 2 ^ 53 ->
        handleAddAssetType st = Ret st' ->
        st' = mkAppState
                (List.app (assetTypes st)
                   [mkAssetType
                      (Js.replace_spaces "-" (Js.toLowerCase (Js.trim newName)))
                      (Js.trim newName)
                      (Js.toUpperCase (Js.trim newPrefix))
                      HardDrive "default"
                      (maxRangeEndOf (assetTypes st) + 1)
                      (maxRangeEndOf (assetTypes st) + 1 + 999)
                      false])
                (lastGeneratedCounters st) (selectedType st)
                false ("", "") (generatedNumber st)).
Proof.
  intros blank newName newPrefix _ _ _.
  assert (Hname : blank newName <-> Js.truthy (Js.trim newName) = false).
  { unfold blank. rewrite <- trim_blank. symmetry. apply truthy_false. }
  assert (Hprefix : blank newPrefix
                    <-> Js.truthy (Js.toUpperCase (Js.trim newPrefix)) = false).
  { unfold blank. rewrite <- trim_blank, truthy_false. symmetry.
    apply toUpperCase_empty. }
  split; [| split; [| split; [| split]]].
  - intros Hb. apply Hname in Hb. unfold handleAddAssetType.
    fold newName. now rewrite Hb.
  - intros Hn Hb. apply Hprefix in Hb.
    assert (Ht : Js.truthy (Js.trim newName) = true)
      by (destruct (Js.truthy (Js.trim newName)); [reflexivity | tauto]).
    unfold handleAddAssetType. fold newName. fold newPrefix.
    now rewrite Ht, Hb.
  - intros Hn Hp Hlen.
    assert (Ht : Js.truthy (Js.trim newName) = true)
      by (destruct (Js.truthy (Js.trim newName)); [reflexivity | tauto]).
    assert (Htp : Js.truthy (Js.toUpperCase (Js.trim newPrefix)) = true)
      by (destruct (Js.truthy (Js.toUpperCase (Js.trim newPrefix)));
          [reflexivity | tauto]).
    unfold handleAddAssetType. fold newName. fold newPrefix.
    rewrite Ht, Htp, length_toUpperCase. cbn [andb negb].
    destruct (Nat.leb_spec 2 (String.length (Js.trim newPrefix)));
      destruct (Nat.leb_spec (String.length (Js.trim newPrefix)) 3);
      cbn [andb]; try reflexivity.
    exfalso. apply Hlen. lia.
  - intros msg st' H.
    destruct (handleAddAssetType_cases st) as [[msg' Hmsg] | (_ & _ & _ & _ & Hok)].
    + rewrite Hmsg in H. now injection H.
    + rewrite Hok in H. discriminate H.
  - intros st' _ H.
    destruct (handleAddAssetType_cases st) as [[msg' Hmsg] | (_ & _ & _ & _ & Hok)].
    + rewrite Hmsg in H. discriminate H.
    + rewrite Hok in H. injection H as <-. reflexivity.
Qed.

(** A name of three spaces is refused as empty. *)
Lemma add_form_answers_witness :
  handleAddAssetType (addForm "   " "SV")
  = Alert "Asset Name cannot be empty." (Ret (addForm "   " "SV")).
Proof.
  pose proof (add_form_answers (addForm "   " "SV")) as H.
  cbv zeta in H. destruct H as [Hblank _].
  - reflexivity.
  - reflexivity.
  - intros t Ht. cbn in Ht. intuition (subst; split; reflexivity).
  - apply Hblank. reflexivity.
Defined.

(** ** What is read from the stored counters *)

Section StoredCounters.

#[local] Open Scope list_scope.

Lemma find_last {A : Type} (f : A -> bool) (l : list A) (a : A) :
  find f (l ++ [a])
  = match find f l with
    | Some x => Some x
    | None => if f a then Some a else None
    end.
Proof.
  induction l as [|b l IH]; simpl; [reflexivity |].
  destruct (f b); [reflexivity | exact IH].
Qed.

(** A lookup after [new Map(pairs)] finds the last pair with the key. *)
Lemma Map_get_new_from (pairs : list (string * Z)) :
  forall (acc : JsMap) (k : string),
    Map_get k (fold_left (fun m kv => Map_set (fst kv) (snd kv) m) pairs acc)
    = match find (fun kv => String.eqb (fst kv) k) (List.rev pairs) with
      | Some kv => Some (snd kv)
      | None => Map_get k acc
      end.
Proof.
  induction pairs as [|[k' v'] pairs IH]; intros acc k; simpl; [reflexivity |].
  rewrite IH, find_last. simpl.
  destruct (find (fun kv => String.eqb (fst kv) k) (List.rev pairs)); [reflexivity |].
  destruct (String.eqb_spec k' k) as [-> | Hne].
  - apply Map_get_set_eq.
  - now apply Map_get_set_ne.
Qed.

End StoredCounters.

(** X13. What [loadCounters] makes of storage. Nothing stored, or nothing
    that parses, gives the empty map. A stored array always gives a proper
    map, even when a key occurs in it more than once: looking a key up then
    finds the value of the last pair with that key, and a key that is in no
    pair is absent. *)
Theorem stored_counters_load :
  loadCounters None = []
  /\ (forall stored, Map_wf (loadCounters stored))
  /\ (forall (pairs : list (string * Z)) (k : string),
         Map_get k (loadCounters (Some pairs))
         = option_map snd (find (fun kv => String.eqb (fst kv) k) (List.rev pairs)))
  /\ (forall (pairs : list (string * Z)) (k : string),
         ~ In k (map fst pairs) -> Map_get k (loadCounters (Some pairs)) = None).
Proof.
  assert (Hget : forall pairs k,
             Map_get k (loadCounters (Some pairs))
             = option_map snd (find (fun kv => String.eqb (fst kv) k) (List.rev pairs))).
  { intros pairs k. unfold loadCounters, Map_new. rewrite Map_get_new_from.
    now destruct (find _ (List.rev pairs)). }
  split; [reflexivity | split; [| split; [exact Hget |]]].
  - intros [pairs|]; apply Map_new_wf.
  - intros pairs k Hk. rewrite Hget.
    destruct (find (fun kv => String.eqb (fst kv) k) (List.rev pairs)) as [kv|] eqn:Hf;
      [| reflexivity].
    apply find_some in Hf. destruct Hf as [Hin Heq].
    exfalso. apply Hk. apply String.eqb_eq in Heq. subst k.
    apply in_map. now apply in_rev.
Qed.

Lemma stored_counters_load_witness :
  Map_get "PC2406" (loadCounters (Some [("LT2406", 3); ("LT2406", 8)])) = None.
Proof.
  apply (proj2 (proj2 (proj2 stored_counters_load))).
  simpl. intuition discriminate.
Defined.

(** ** The digits of the period *)

Section PeriodDigits.

Lemma decimal_value_app (s t : string) :
  forall acc, decimal_value (s ++ t) acc = decimal_value t (decimal_value s acc).
Proof. induction s as [|c s IH]; intros acc; simpl; [reflexivity | apply IH]. Qed.

Lemma string_of_uint_value (l : uint) :
  forall a : positive,
    decimal_value (NilEmpty.string_of_uint l) (Z.pos a)
    = Z.pos (Pos.of_uint_acc l a).
Proof.
  induction l as [|l IH|l IH|l IH|l IH|l IH|l IH|l IH|l IH|l IH|l IH];
    intros a; [reflexivity | ..];
    cbn [NilEmpty.string_of_uint decimal_value Pos.of_uint_acc];
    rewrite <- IH; f_equal;
    match goal with
    | |- context [digit_value ?c] =>
        let v := eval vm_compute in (digit_value c) in
        change (digit_value c) with v
    end; lia.
Qed.

Lemma toString_value (p : positive) :
  decimal_value (Js.toString (Z.pos p)) 0 = Z.pos p.
Proof.
  rewrite toString_pos.
  pose proof (DecimalPos.Unsigned.of_to p) as Hof.
  pose proof (to_uint_no_leading_zero p) as Hz.
  destruct (Pos.to_uint p) as [|u|u|u|u|u|u|u|u|u|u];
    [ discriminate Hof | now contradiction (Hz u) | .. ];
    cbn [Pos.of_uint] in Hof; injection Hof as <-;
    cbn [NilEmpty.string_of_uint decimal_value];
    rewrite <- string_of_uint_value; reflexivity.
Qed.

(** The characters of a number are digits. *)
Lemma string_of_uint_digits (l : uint) (c : ascii) :
  In c (list_ascii_of_string (NilEmpty.string_of_uint l)) ->
  0 <= digit_value c <= 9 /\ digit_char (digit_value c) = c.
Proof.
  induction l as [|l IH|l IH|l IH|l IH|l IH|l IH|l IH|l IH|l IH|l IH];
    simpl; [contradiction | ..];
    (intros [<- | Hin]; [vm_compute; intuition discriminate | now apply IH]).
Qed.

Lemma decimal_value_nonneg (s : string) :
  (forall c, In c (list_ascii_of_string s) -> 0 <= digit_value c) ->
  forall acc, 0 <= acc -> 0 <= decimal_value s acc.
Proof.
  induction s as [|c s IH]; intros Hd acc Hacc; cbn [decimal_value];
    [exact Hacc |].
  apply IH.
  - intros x Hx. apply Hd. now right.
  - pose proof (Hd c (or_introl eq_refl)). lia.
Qed.

Lemma list_ascii_app (s t : string) :
  list_ascii_of_string (s ++ t)
  = (list_ascii_of_string s ++ list_ascii_of_string t)%list.
Proof. induction s as [|c s IH]; simpl; [reflexivity | now rewrite IH]. Qed.

(** A string of two characters or more ends in its last two. *)
Lemma last_two (s : string) :
  (2 <= String.length s)%nat ->
  exists s0 c1 c2,
    s = s0 ++ String c1 (String c2 "")
    /\ Js.slice_last 2 s = String c1 (String c2 "").
Proof.
  intros Hlen.
  assert (Hsplit : exists s0 c1 c2, s = s0 ++ String c1 (String c2 "")).
  { induction s as [|c s IH]; [simpl in Hlen; lia |].
    destruct s as [|c' s']; [simpl in Hlen; lia |].
    destruct s' as [|c'' s''].
    - exists "", c, c'. reflexivity.
    - destruct IH as (s0 & c1 & c2 & H); [simpl; lia |].
      exists (String c s0), c1, c2. simpl. now rewrite <- H. }
  destruct Hsplit as (s0 & c1 & c2 & ->).
  exists s0, c1, c2. split; [reflexivity |].
  unfold Js.slice_last. rewrite length_app. simpl String.length.
  replace (String.length s0 + 2 - 2)%nat with (String.length s0) by lia.
  clear Hlen. induction s0 as [|c s0 IH]; [reflexivity | exact IH].
Qed.

Lemma digit_char_inj (a b : Z) :
  0 <= a <= 9 -> 0 <= b <= 9 -> digit_char a = digit_char b -> a = b.
Proof.
  intros Ha Hb H. unfold digit_char in H.
  apply (f_equal nat_of_ascii) in H.
  rewrite !nat_ascii_embedding in H by lia. lia.
Qed.

(** [slice(-2)] of the year: the tens and the units of the year. *)
Lemma yearOf_digits (d : Date) :
  10 <= getFullYear d -> yearOf d = two_digits (getFullYear d mod 100).
Proof.
  intros Hy. unfold yearOf.
  destruct (getFullYear d) as [|p|p] eqn:Hp; try lia.
  destruct (last_two (Js.toString (Z.pos p))) as (s0 & c1 & c2 & Hs & ->);
    [now apply length_toString_ge_10 |].
  pose proof (toString_value p) as Hval.
  assert (Hdigits : forall c, In c (list_ascii_of_string (Js.toString (Z.pos p))) ->
                      0 <= digit_value c <= 9 /\ digit_char (digit_value c) = c).
  { intros c. rewrite toString_pos. apply string_of_uint_digits. }
  rewrite Hs in Hval, Hdigits. rewrite decimal_value_app in Hval.
  cbn [decimal_value] in Hval.
  assert (H0 : 0 <= decimal_value s0 0).
  { apply decimal_value_nonneg; [| lia].
    intros c Hc. apply Hdigits. rewrite list_ascii_app.
    apply in_or_app. now left. }
  destruct (Hdigits c1) as [Hr1 Hc1];
    [rewrite list_ascii_app; apply in_or_app; right; simpl; tauto |].
  destruct (Hdigits c2) as [Hr2 Hc2];
    [rewrite list_ascii_app; apply in_or_app; right; simpl; tauto |].
  unfold two_digits.
  replace (Z.pos p mod 100 / 10) with (digit_value c1)
    by (rewrite <- Hval; Z.div_mod_to_equations; lia).
  replace ((Z.pos p mod 100) mod 10) with (digit_value c2)
    by (rewrite <- Hval; Z.div_mod_to_equations; lia).
  now rewrite Hc1, Hc2.
Qed.

(** The month string: the two digits of the month number, January being
    01. *)
Lemma monthOf_digits (d : Date) :
  0 <= getMonth d <= 11 -> monthOf d = two_digits (getMonth d + 1).
Proof.
  intros H. unfold monthOf.
  assert (Hin : In (getMonth d) [0; 1; 2; 3; 4; 5; 6; 7; 8; 9; 10; 11])
    by (simpl; lia).
  simpl in Hin.
  repeat (destruct Hin as [<- | Hin]; [reflexivity |]).
  contradiction.
Qed.

Lemma two_digits_inj (a b : Z) :
  0 <= a < 100 -> 0 <= b < 100 -> two_digits a = two_digits b -> a = b.
Proof.
  intros Ha Hb H. unfold two_digits in H. injection H as H1 H2.
  apply digit_char_inj in H1; [| Z.div_mod_to_equations; lia ..].
  apply digit_char_inj in H2; [| Z.div_mod_to_equations; lia ..].
  Z.div_mod_to_equations; lia.
Qed.

Lemma length_formatNum_small (n : Z) :
  0 <= n <= 9999 -> String.length (formatNum n) = 4%nat.
Proof.
  destruct n as [|p|p]; intros Hn; [reflexivity | | lia].
  rewrite formatNum_zeros, length_app, length_zeros, toString_pos,
    length_string_of_uint.
  pose proof (digits_of_small p ltac:(lia)). lia.
Qed.

End PeriodDigits.


